(** * UWExploration: the simulated-AUV process wrapper and the particle-filter
      launch description

    Two source files are covered:

    - [sim_auv/auv_model/src/auv_motion_simple_node.cpp]: the [main] of the
      [auv_motion_model] node, embedded as a state-passing program over a
      small model of the roscpp runtime (parameter server, heap, timers,
      callback dispatch while spinning);
    - the launch description of the [auv_pf] node (an XML file), embedded as
      a value of a launch-file syntax together with roslaunch's reading of it
      (argument substitution, [if]/[unless] groups, parameter conversion).

    The estimation core that both files drive (pose, noise model, particle
    filter) is not part of these sources; it is modelled from the design
    document, over the real numbers, in the module [Core]. *)

From Stdlib Require Import Uint63 PrimFloat.
From Stdlib Require Import ZArith QArith Qreals Reals Lra Lia.
From Stdlib Require Import Ascii String List.
From stdpp Require Import gmap strings list.

(** ** The roscpp runtime, as far as [main] uses it *)

Module Ros.

(** A value held by the parameter server. *)
Inductive XmlRpcValue : Type :=
| XBool (b : bool)
| XInt (i : Z)
| XDouble (d : float)
| XString (s : string).

(** The C++ conversion of an [int] to a [double]. *)
Definition double_of_int (i : Z) : float :=
  if (i <? 0)%Z
  then PrimFloat.opp (PrimFloat.of_uint63 (Uint63.of_Z (- i)))
  else PrimFloat.of_uint63 (Uint63.of_Z i).

(** [getParam] at type [double]: an integer value is converted, any other
    type is a miss. *)
Definition getParam_double (v : XmlRpcValue) : option float :=
  match v with
  | XDouble d => Some d
  | XInt i => Some (double_of_int i)
  | _ => None
  end.

(** [nh.param<double>(name, var, default)]: the stored value when there is
    one of a fitting type, the default otherwise. *)
Definition param_double (ps : gmap string XmlRpcValue)
    (name : string) (default : float) : float :=
  match ps !! name with
  | Some v => match getParam_double v with
              | Some d => d
              | None => default
              end
  | None => default
  end.

(** [ros::Duration(double)]. *)
Inductive Duration : Type := mkDuration (sec : float).

End Ros.

(** ** The motion model behind the wrapper *)

Module AUVMotionModel.

(** Modelled from the spec: the class [AUVMotionModel] is declared in
    [auv_model/auv_motion_simple.hpp], which is not among the sources. What
    the design document fixes is its life cycle: a model is [Uninitialized]
    until [init] makes it [Running]; [updateMotion] and [updateMeas] need a
    [Running] model and signal a precondition violation otherwise, leaving
    the model as it was. The two counters stand for the events the updates
    emit (odometry increments, sonar pings). *)
Inductive state : Type := Uninitialized | Running.

Record t : Type := mk {
  st : state;
  odom_emitted : nat;
  pings_emitted : nat
}.

Inductive error : Type := PreconditionViolation.

Definition new : t :=
  {| st := Uninitialized; odom_emitted := 0; pings_emitted := 0 |}.

Definition init (m : t) : t :=
  {| st := Running;
     odom_emitted := odom_emitted m;
     pings_emitted := pings_emitted m |}.

Definition updateMotion (m : t) : error + t :=
  match st m with
  | Uninitialized => inl PreconditionViolation
  | Running =>
      inr {| st := Running;
             odom_emitted := S (odom_emitted m);
             pings_emitted := pings_emitted m |}
  end.

Definition updateMeas (m : t) : error + t :=
  match st m with
  | Uninitialized => inl PreconditionViolation
  | Running =>
      inr {| st := Running;
             odom_emitted := odom_emitted m;
             pings_emitted := S (pings_emitted m) |}
  end.

(** The member functions handed to [createTimer]. *)
Inductive callback : Type := cb_updateMotion | cb_updateMeas.

Definition invoke (cb : callback) : t -> error + t :=
  match cb with
  | cb_updateMotion => updateMotion
  | cb_updateMeas => updateMeas
  end.

End AUVMotionModel.

(** ** [auv_motion_simple_node.cpp] *)

Module Node.
Import Ros.

(** A timer as [createTimer] registers it: period, member function, and the
    object the member function is called on (a heap address). *)
Record timer : Type := mkTimer {
  t_period : Duration;
  t_callback : AUVMotionModel.callback;
  t_obj : nat
}.

(** What an execution does, in order. [EvCallback] records the state the
    object was in when the callback was entered ([None]: no live object at
    that address). *)
Inductive event : Type :=
| EvRosInit (name : string)
| EvNodeHandle (ns : string)
| EvNew (p : nat)
| EvInit (p : nat)
| EvCreateTimer (tm : timer)
| EvCallback (cb : AUVMotionModel.callback) (p : nat)
             (s : option AUVMotionModel.state)
| EvShutdown
| EvDelete (p : nat)
| EvLog (msg : string).

(** The process state. [params] is the parameter server as seen through the
    private node handle; [heap] holds the objects made with [new], an
    address being an index; [firings] is the sequence of timer expirations
    the runtime delivers while the node spins, each naming a timer by its
    position in [timers]. *)
Record world : Type := mkWorld {
  this_node : string;
  params : gmap string XmlRpcValue;
  heap : list (option AUVMotionModel.t);
  timers : list timer;
  firings : list nat;
  ok : bool;
  trace : list event
}.

Definition M (A : Type) : Type := world -> A * world.

#[export] Instance M_ret : MRet M := fun A a w => (a, w).
#[export] Instance M_bind : MBind M :=
  fun A B f m w => let '(a, w') := m w in f a w'.

Definition log_event (e : event) : M unit := fun w =>
  (tt, mkWorld (this_node w) (params w) (heap w) (timers w) (firings w)
               (ok w) (trace w ++ [e])).

(** [ros::init(argc, argv, name)]: the node is up and has its name. *)
Definition ros_init (name : string) : M unit := fun w =>
  (tt, mkWorld ("/" +:+ name) (params w) (heap w) (timers w) (firings w)
               true (trace w ++ [EvRosInit name])).

(** [ros::this_node::getName()]. *)
Definition this_node_getName : M string := fun w => (this_node w, w).

Definition NodeHandle (ns : string) : M string :=
  log_event (EvNodeHandle ns) ;; mret ns.

Definition nh_param_double (nh name : string) (default : float) : M float :=
  fun w => (param_double (params w) name default, w).

(** [new AUVMotionModel(name, nh)]: a fresh, uninitialized model at a fresh
    address. *)
Definition new_AUVMotionModel (name nh : string) : M nat := fun w =>
  let p := length (heap w) in
  (p, mkWorld (this_node w) (params w)
              (heap w ++ [Some AUVMotionModel.new]) (timers w)
              (firings w) (ok w) (trace w ++ [EvNew p])).

(** [auv_mm->init()]. *)
Definition call_init (p : nat) : M unit := fun w =>
  let h := match heap w !! p with
           | Some (Some m) => <[p := Some (AUVMotionModel.init m)]> (heap w)
           | _ => heap w
           end in
  (tt, mkWorld (this_node w) (params w) h (timers w) (firings w) (ok w)
               (trace w ++ [EvInit p])).

Definition createTimer (period : Duration)
    (cb : AUVMotionModel.callback) (p : nat) : M nat := fun w =>
  let tm := mkTimer period cb p in
  (length (timers w),
   mkWorld (this_node w) (params w) (heap w) (timers w ++ [tm])
           (firings w) (ok w) (trace w ++ [EvCreateTimer tm])).

(** One timer expiration: the registered member function runs on the
    registered object. A violation leaves the object unchanged. *)
Definition fire (i : nat) : M unit := fun w =>
  match timers w !! i with
  | None => (tt, w)
  | Some tm =>
      let p := t_obj tm in
      let cb := t_callback tm in
      match heap w !! p with
      | Some (Some m) =>
          let h := match AUVMotionModel.invoke cb m with
                   | inr m' => <[p := Some m']> (heap w)
                   | inl _ => heap w
                   end in
          (tt, mkWorld (this_node w) (params w) h (timers w) (firings w)
                       (ok w)
                       (trace w ++ [EvCallback cb p
                                      (Some (AUVMotionModel.st m))]))
      | _ =>
          (tt, mkWorld (this_node w) (params w) (heap w) (timers w)
                       (firings w) (ok w)
                       (trace w ++ [EvCallback cb p None]))
      end
  end.

Fixpoint deliver (fs : list nat) : M unit :=
  match fs with
  | [] => mret tt
  | i :: fs' => fire i ;; deliver fs'
  end.

(** [ros::spin()]: callbacks run here and nowhere else, one at a time, until
    the node is shut down. *)
Definition spin : M unit := fun w =>
  let '(_, w1) := deliver (firings w) w in
  (tt, mkWorld (this_node w1) (params w1) (heap w1) (timers w1) [] false
               (trace w1 ++ [EvShutdown])).

Definition waitForShutdown : M unit := mret tt.

Definition ros_ok : M bool := fun w => (ok w, w).

Definition delete (p : nat) : M unit := fun w =>
  (tt, mkWorld (this_node w) (params w) (<[p := None]> (heap w)) (timers w)
               (firings w) (ok w) (trace w ++ [EvDelete p])).

Definition ROS_INFO (msg : string) : M unit := log_event (EvLog msg).

Definition main : M Z :=
  ros_init "auv_motion_model" ;;
  nh ← NodeHandle "~" ;
  rate_odom ← nh_param_double nh "odom_rate" 1%float ;
  rate_meas ← nh_param_double nh "meas_rate" 1%float ;
  name ← this_node_getName ;
  auv_mm ← new_AUVMotionModel name nh ;
  call_init auv_mm ;;
  timer1 ← createTimer (mkDuration rate_odom)
             AUVMotionModel.cb_updateMotion auv_mm ;
  timer2 ← createTimer (mkDuration rate_meas)
             AUVMotionModel.cb_updateMeas auv_mm ;
  spin ;;
  waitForShutdown ;;
  running ← ros_ok ;
  (if negb running then delete auv_mm else mret tt) ;;
  ROS_INFO "auv_motion_model finished" ;;
  mret 0%Z.

(** The process as the runtime starts it: the given parameters, nothing on
    the heap, no timer, and the expirations to come. *)
Definition start (ps : gmap string XmlRpcValue) (fs : list nat) : world :=
  mkWorld EmptyString ps [] [] fs false [].

Definition run (ps : gmap string XmlRpcValue) (fs : list nat) : world :=
  snd (main (start ps fs)).

End Node.

(** ** roslaunch's reading of a launch description *)

Module Launch.
Import Ros.
Local Open Scope string_scope.

(** *** Text utilities (Python's [lower], [strip], [int], [float]) *)

Definition lower_ascii (c : ascii) : ascii :=
  let n := nat_of_ascii c in
  if ((65 <=? n) && (n <=? 90))%nat then ascii_of_nat (n + 32) else c.

Fixpoint lower (s : string) : string :=
  match s with
  | EmptyString => EmptyString
  | String c s' => String (lower_ascii c) (lower s')
  end.

(** The blanks [strip] removes: tab to carriage return, and the space. The
    separators 28 to 31 and the blanks beyond ASCII, which Python strips
    too, are not covered. *)
Definition is_space (c : ascii) : bool :=
  let n := nat_of_ascii c in ((9 <=? n) && (n <=? 13) || (n =? 32))%nat.

Fixpoint lstrip (s : string) : string :=
  match s with
  | EmptyString => EmptyString
  | String c s' => if is_space c then lstrip s' else s
  end.

Fixpoint rstrip (s : string) : string :=
  match s with
  | EmptyString => EmptyString
  | String c s' =>
      match rstrip s' with
      | EmptyString => if is_space c then EmptyString else String c EmptyString
      | r => String c r
      end
  end.

Definition strip (s : string) : string := rstrip (lstrip s).

Definition digit_of (c : ascii) : option Z :=
  let n := nat_of_ascii c in
  if ((48 <=? n) && (n <=? 57))%nat then Some (Z.of_nat (n - 48)) else None.

Fixpoint parse_digits (s : string) (acc : Z) : option Z :=
  match s with
  | EmptyString => Some acc
  | String c s' =>
      match digit_of c with
      | Some d => parse_digits s' (10 * acc + d)%Z
      | None => None
      end
  end.

(** A sign, if any, and what follows it. *)
Definition split_sign (s : string) : bool * string :=
  match s with
  | String "-" r => (true, r)
  | String "+" r => (false, r)
  | _ => (false, s)
  end.

(** [int(value)] for a decimal numeral: blanks around it, an optional sign,
    at least one digit. Digit groups joined by underscores, which Python
    reads as well, are not covered; the result is not bounded, the 32 bits
    of an XML-RPC integer being left to the parameter server. *)
Definition parse_int (s : string) : option Z :=
  let '(neg, body) := split_sign (strip s) in
  match body with
  | EmptyString => None
  | _ => (fun n => if neg then (- n)%Z else n) <$> parse_digits body 0
  end.

(** The text before and after the first dot. *)
Fixpoint split_dot (s : string) : string * option string :=
  match s with
  | EmptyString => (EmptyString, None)
  | String c s' =>
      if Ascii.eqb c "." then (EmptyString, Some s')
      else let '(a, b) := split_dot s' in (String c a, b)
  end.

(** A decimal numeral [digits.digits] read exactly: sign, the digits as one
    integer, and how many of them follow the dot. Exponents, [inf] and
    [nan], which [float(value)] reads as well, are not covered. *)
Record decimal : Type := mkDecimal {
  dec_neg : bool;
  dec_digits : Z;
  dec_places : nat
}.

Definition parse_decimal (s : string) : option decimal :=
  let '(neg, body) := split_sign (strip s) in
  let '(ip, fp) := split_dot body in
  let fp := default EmptyString fp in
  match (ip ++ fp)%string with
  | EmptyString => None
  | ds => (fun n => mkDecimal neg n (String.length fp)) <$> parse_digits ds 0
  end.

Definition Q_of_decimal (d : decimal) : Q :=
  let q := Qmake (dec_digits d) (Pos.pow 10 (Pos.of_nat (dec_places d))) in
  let q := match dec_places d with
           | O => inject_Z (dec_digits d)
           | _ => q
           end in
  if dec_neg d then Qopp q else q.

(** [float(value)] for such a numeral: the quotient of two integers, rounded
    once (the numeral's own binary64 value when it has at most 15 digits;
    longer numerals may round differently). *)
Definition double_of_decimal (d : decimal) : float :=
  let v := PrimFloat.div (double_of_int (dec_digits d))
                         (double_of_int (10 ^ Z.of_nat (dec_places d))) in
  if dec_neg d then PrimFloat.opp v else v.

Definition has_dot (s : string) : bool :=
  match split_dot s with (_, Some _) => true | _ => false end.

(** [convert_value(value, 'bool')]. *)
Definition convert_bool (s : string) : option bool :=
  let v := strip (lower s) in
  if String.eqb v "true" || String.eqb v "1" then Some true
  else if String.eqb v "false" || String.eqb v "0" then Some false
  else None.

(** [convert_value(value, type)]: with no [type] attribute the value is read
    as a number when it is one, as a boolean when it spells one, and as a
    string otherwise; with a [type] the conversion must succeed. Numbers
    are the numerals [parse_int] and [parse_decimal] read: the statements
    below depend on the value of this conversion only for the defaults of
    the description and for names that start with a slash. *)
Definition convert_auto (s : string) : XmlRpcValue :=
  let num := if has_dot s
             then XDouble <$> (double_of_decimal <$> parse_decimal s)
             else XInt <$> parse_int s in
  match num with
  | Some v => v
  | None =>
      let l := lower s in
      if String.eqb l "true" || String.eqb l "false"
      then match convert_bool s with
           | Some b => XBool b
           | None => XString s
           end
      else XString s
  end.

Definition convert_value (s : string) (ty : option string)
    : option XmlRpcValue :=
  match ty with
  | None => Some (convert_auto s)
  | Some t =>
      let t := lower t in
      if String.eqb t "auto" then Some (convert_auto s)
      else if String.eqb t "str" || String.eqb t "string"
      then Some (XString s)
      else if String.eqb t "int" then XInt <$> parse_int s
      else if String.eqb t "double"
      then XDouble <$> (double_of_decimal <$> parse_decimal s)
      else if String.eqb t "bool" || String.eqb t "boolean"
      then XBool <$> convert_bool s
      else None
  end.

(** *** Substitution arguments *)

(** Where the scan of an attribute value stands: in plain text, inside the
    opening [$(arg ] with [n] characters of it still to pass, or inside the
    argument's name. *)
Inductive scan : Type :=
| Plain
| Skip (n : nat)
| Name (nm : string).

(** An attribute value with every [$(arg name)] replaced by the argument's
    value; [None] when an argument is not defined or a substitution is not
    closed. *)
Fixpoint resolve_from (ctx : gmap string string) (m : scan) (s : string)
    : option string :=
  match s with
  | EmptyString => match m with Plain => Some EmptyString | _ => None end
  | String c s' =>
      match m with
      | Plain =>
          if String.prefix "$(arg " s
          then resolve_from ctx (Skip 5) s'
          else String c <$> resolve_from ctx Plain s'
      | Skip n =>
          resolve_from ctx
            (match n with 0%nat | 1%nat => Name EmptyString
                        | S n' => Skip n' end) s'
      | Name nm =>
          if Ascii.eqb c ")"
          then match ctx !! nm with
               | Some v => String.append v <$> resolve_from ctx Plain s'
               | None => None
               end
          else resolve_from ctx (Name (nm ++ String c EmptyString)) s'
      end
  end.

Definition resolve (ctx : gmap string string) (s : string) : option string :=
  resolve_from ctx Plain s.

(** *** Launch descriptions *)

(** [<arg name=.. default=../>] *)
Record arg_tag : Type := mkArg {
  arg_name : string;
  arg_default : string
}.

(** [<param name=.. type=.. value=../>] *)
Record param_tag : Type := mkParam {
  param_name : string;
  param_type : option string;
  param_value : string
}.

(** [<node type=.. pkg=.. name=.. output=..> params </node>] *)
Record node_tag : Type := mkNode {
  node_type : string;
  node_pkg : string;
  node_name : string;
  node_output : string;
  node_params : list param_tag
}.

(** The [if] or [unless] attribute of a group. *)
Inductive guard : Type :=
| If (v : string)
| Unless (v : string).

(** [<group if=..> nodes </group>] *)
Record group_tag : Type := mkGroup {
  group_guard : guard;
  group_nodes : list node_tag
}.

Record launch_file : Type := mkLaunch {
  launch_args : list arg_tag;
  launch_groups : list group_tag
}.

(** A node as roslaunch starts it: its attributes and the private
    parameters set for it. *)
Record node : Type := mkLaunched {
  n_type : string;
  n_pkg : string;
  n_name : string;
  n_output : string;
  n_params : gmap string XmlRpcValue
}.

(** The arguments, in order: a value given on the command line wins over
    the default; a default may use the arguments before it. *)
Fixpoint eval_args (decls : list arg_tag)
    (given ctx : gmap string string) : option (gmap string string) :=
  match decls with
  | [] => Some ctx
  | d :: ds =>
      match given !! arg_name d with
      | Some v => eval_args ds given (<[arg_name d := v]> ctx)
      | None =>
          match resolve ctx (arg_default d) with
          | Some v => eval_args ds given (<[arg_name d := v]> ctx)
          | None => None
          end
      end
  end.

Fixpoint eval_params (ctx : gmap string string) (ps : list param_tag)
    (acc : gmap string XmlRpcValue) : option (gmap string XmlRpcValue) :=
  match ps with
  | [] => Some acc
  | p :: ps' =>
      match resolve ctx (param_value p) with
      | Some s =>
          match convert_value s (param_type p) with
          | Some v => eval_params ctx ps' (<[param_name p := v]> acc)
          | None => None
          end
      | None => None
      end
  end.

Definition eval_node (ctx : gmap string string) (n : node_tag)
    : option node :=
  mkLaunched (node_type n) (node_pkg n) (node_name n) (node_output n)
    <$> eval_params ctx (node_params n) ∅.

Fixpoint eval_nodes (ctx : gmap string string) (ns : list node_tag)
    : option (list node) :=
  match ns with
  | [] => Some []
  | n :: ns' =>
      match eval_node ctx n with
      | Some l =>
          match eval_nodes ctx ns' with
          | Some ls => Some (l :: ls)
          | None => None
          end
      | None => None
      end
  end.

(** Whether a guarded tag is processed. *)
Definition ifunless_test (ctx : gmap string string) (g : guard)
    : option bool :=
  match g with
  | If v =>
      match resolve ctx v with
      | Some s => convert_bool s
      | None => None
      end
  | Unless v =>
      match resolve ctx v with
      | Some s => negb <$> convert_bool s
      | None => None
      end
  end.

Fixpoint eval_groups (ctx : gmap string string) (gs : list group_tag)
    : option (list node) :=
  match gs with
  | [] => Some []
  | g :: gs' =>
      match ifunless_test ctx (group_guard g) with
      | Some true =>
          match eval_nodes ctx (group_nodes g) with
          | Some here =>
              match eval_groups ctx gs' with
              | Some rest => Some (here ++ rest)%list
              | None => None
              end
          | None => None
          end
      | Some false => eval_groups ctx gs'
      | None => None
      end
  end.

Fixpoint distinct (names : list string) : bool :=
  match names with
  | [] => true
  | n :: ns => negb (existsb (String.eqb n) ns) && distinct ns
  end.

(** The nodes a launch description starts, given the arguments set on the
    command line; [None] when roslaunch rejects the description (an
    undefined argument, a value that does not convert, two nodes of one
    name). *)
Definition launch (lf : launch_file) (given : gmap string string)
    : option (list node) :=
  match eval_args (launch_args lf) given ∅ with
  | Some ctx =>
      match eval_groups ctx (launch_groups lf) with
      | Some ns => if distinct (n_name <$> ns) then Some ns else None
      | None => None
      end
  | None => None
  end.

(** *** The launch description of the particle filter *)

(** The group taken unless [debug_mode]: output to the log. *)
Definition quiet_group : group_tag :=
  mkGroup (Unless "$(arg debug_mode)")
    [ mkNode "auv_pf.py" "auv_particle_filter" "auv_pf" "log"
        [ mkParam "particle_count" (Some "int") "$(arg particle_count)";
          mkParam "init_covariance" None "$(arg init_covariance)";
          mkParam "measurement_covariance" None
                  "$(arg measurement_covariance)";
          mkParam "motion_covariance" None "$(arg motion_covariance)";
          mkParam "map_frame" None "$(arg map_frame)";
          mkParam "odom_frame" None "$(arg odom_frame)";
          mkParam "odometry_topic" None "$(arg odometry_topic)";
          mkParam "mbes_pings_topic" None "$(arg mbes_pings_topic)";
          mkParam "average_pose_topic" None "$(arg average_pose_topic)";
          mkParam "average_mbes_topic" None "$(arg average_mbes_topic)";
          mkParam "particle_poses_topic" None "$(arg particle_poses_topic)";
          mkParam "particle_sim_mbes_topic" None
                  "$(arg particle_sim_mbes_topic)" ] ].

(** The group taken if [debug_mode]: output to the terminal. *)
Definition debug_group : group_tag :=
  mkGroup (If "$(arg debug_mode)")
    [ mkNode "auv_pf.py" "auv_particle_filter" "auv_pf" "screen"
        [ mkParam "particle_count" (Some "int") "$(arg particle_count)";
          mkParam "init_covariance" None "$(arg init_covariance)";
          mkParam "measurement_covariance" None
                  "$(arg measurement_covariance)";
          mkParam "motion_covariance" None "$(arg motion_covariance)";
          mkParam "map_frame" None "$(arg map_frame)";
          mkParam "odom_frame" None "$(arg odom_frame)";
          mkParam "odometry_topic" None "$(arg odometry_topic)";
          mkParam "mbes_pings_topic" None "$(arg mbes_pings_topic)";
          mkParam "average_pose_topic" None "$(arg average_pose_topic)";
          mkParam "average_mbes_topic" None "$(arg average_mbes_topic)";
          mkParam "particle_poses_topic" None "$(arg particle_poses_topic)";
          mkParam "particle_sim_mbes_topic" None
                  "$(arg particle_sim_mbes_topic)" ] ].

Definition auv_pf_launch : launch_file :=
  mkLaunch
    [ mkArg "mode" "sim";
      mkArg "debug_mode" "True";
      mkArg "filter" "pf";
      mkArg "particle_count" "1";
      mkArg "init_covariance" "[0, 0, 0.0, 0.0, 0.0, 0.0]";
      mkArg "motion_covariance" "[0, 0, 0.0, 0.0, 0.0, 0.00]";
      mkArg "measurement_covariance" "0.1";
      mkArg "map_frame" "map";
      mkArg "odom_frame" "odom";
      mkArg "odometry_topic" "/$(arg mode)/odom";
      mkArg "mbes_pings_topic" "/$(arg mode)/mbes_pings";
      mkArg "average_pose_topic" "/$(arg filter)/avg_pose";
      mkArg "particle_poses_topic" "/$(arg filter)/particle_poses";
      mkArg "particle_sim_mbes_topic" "/$(arg filter)/sim_mbes";
      mkArg "average_mbes_topic" "/$(arg filter)/avg_mbes" ]
    [ quiet_group; debug_group ].

(** *** List literals *)

(** The text between the separators [sep]. *)
Fixpoint split_on (sep : ascii) (s : string) : list string :=
  match s with
  | EmptyString => [EmptyString]
  | String c s' =>
      if Ascii.eqb c sep then EmptyString :: split_on sep s'
      else match split_on sep s' with
           | h :: t => String c h :: t
           | [] => [String c EmptyString]
           end
  end.

(** What stands between the brackets of [[ ... ]]. *)
Definition unbracket (s : string) : option string :=
  match strip s with
  | String "[" r =>
      match rstrip r with
      | EmptyString => None
      | r' => let n := String.length r' in
              if String.eqb (String.substring (n - 1) 1 r') "]"
              then Some (String.substring 0 (n - 1) r') else None
      end
  | _ => None
  end.

Fixpoint read_numbers (items : list string) : option (list Q) :=
  match items with
  | [] => Some []
  | i :: rest =>
      match parse_decimal i, read_numbers rest with
      | Some d, Some qs => Some (Q_of_decimal d :: qs)
      | _, _ => None
      end
  end.

(** The numbers of a list literal [[a, b, ...]] of decimal numerals, which is
    how the launch description writes a covariance diagonal. *)
Definition read_list (s : string) : option (list Q) :=
  match unbracket s with
  | Some body =>
      match strip body with
      | EmptyString => Some []
      | _ => read_numbers (split_on "," body)
      end
  | None => None
  end.

End Launch.

(** ** The estimation core *)

Module Core.
Local Open Scope R_scope.

(** Modelled from the spec: the estimation core ([auv_pf.py] and the
    classes behind [auv_motion_simple.hpp]) is not among the sources. The
    definitions of this module follow the design document: its data model
    (reals for coordinates, angles and weights), the noise model, the
    application of a delta to a pose, and the particle filter's
    [initialize], [update], [maybeResample] and [estimate]. Random draws
    are explicit arguments. *)
Record Pose : Type := mkPose {
  x : R; y : R; z : R;
  roll : R; pitch : R; yaw : R
}.

(** Modelled from the spec: the orientation components of a pose are kept
    in (-PI, PI]. *)
Definition wrapped_angle (a : R) : Prop := - PI < a <= PI.

Definition wrapped (P : Pose) : Prop :=
  wrapped_angle (roll P) /\ wrapped_angle (pitch P) /\ wrapped_angle (yaw P).

(** The representative of an angle in (-PI, PI]. *)
Definition wrap (a : R) : R :=
  a + 2 * PI * IZR (up (- ((a + PI) / (2 * PI)))).

(** *** NoiseModel *)

(** The diagonal of a 6-dof covariance. *)
Record CovarianceDiag : Type := mkCov {
  var_x : R; var_y : R; var_z : R;
  var_roll : R; var_pitch : R; var_yaw : R
}.

Definition zero_covariance : CovarianceDiag := mkCov 0 0 0 0 0 0.

(** Modelled from the spec: [NoiseModel.sample], whose code is not among the
    sources. [sample cov g] is six independent standard normal variates [g],
    each scaled by the square root of its variance. *)
Definition sample (cov : CovarianceDiag) (g : Pose) : Pose :=
  {| x := sqrt (var_x cov) * x g;
     y := sqrt (var_y cov) * y g;
     z := sqrt (var_z cov) * z g;
     roll := sqrt (var_roll cov) * roll g;
     pitch := sqrt (var_pitch cov) * pitch g;
     yaw := sqrt (var_yaw cov) * yaw g |}.

(** *** Pose as a rigid-body transform *)

Record vec3 : Type := mkVec { v1 : R; v2 : R; v3 : R }.

Record mat3 : Type := mkMat {
  m11 : R; m12 : R; m13 : R;
  m21 : R; m22 : R; m23 : R;
  m31 : R; m32 : R; m33 : R
}.

(** Yaw about z, then pitch about y, then roll about x. *)
Definition rotation (r p w : R) : mat3 :=
  {| m11 := cos w * cos p;
     m12 := cos w * sin p * sin r - sin w * cos r;
     m13 := cos w * sin p * cos r + sin w * sin r;
     m21 := sin w * cos p;
     m22 := sin w * sin p * sin r + cos w * cos r;
     m23 := sin w * sin p * cos r - cos w * sin r;
     m31 := - sin p;
     m32 := cos p * sin r;
     m33 := cos p * cos r |}.

Definition mat_vec (m : mat3) (v : vec3) : vec3 :=
  {| v1 := m11 m * v1 v + m12 m * v2 v + m13 m * v3 v;
     v2 := m21 m * v1 v + m22 m * v2 v + m23 m * v3 v;
     v3 := m31 m * v1 v + m32 m * v2 v + m33 m * v3 v |}.

Definition mat_mul (a b : mat3) : mat3 :=
  {| m11 := m11 a * m11 b + m12 a * m21 b + m13 a * m31 b;
     m12 := m11 a * m12 b + m12 a * m22 b + m13 a * m32 b;
     m13 := m11 a * m13 b + m12 a * m23 b + m13 a * m33 b;
     m21 := m21 a * m11 b + m22 a * m21 b + m23 a * m31 b;
     m22 := m21 a * m12 b + m22 a * m22 b + m23 a * m32 b;
     m23 := m21 a * m13 b + m22 a * m23 b + m23 a * m33 b;
     m31 := m31 a * m11 b + m32 a * m21 b + m33 a * m31 b;
     m32 := m31 a * m12 b + m32 a * m22 b + m33 a * m32 b;
     m33 := m31 a * m13 b + m32 a * m23 b + m33 a * m33 b |}.

Definition vec_add (a b : vec3) : vec3 :=
  {| v1 := v1 a + v1 b; v2 := v2 a + v2 b; v3 := v3 a + v3 b |}.

Record transform : Type := mkTransform { rot : mat3; trans : vec3 }.

Definition position (P : Pose) : vec3 := mkVec (x P) (y P) (z P).

Definition orientation (P : Pose) : mat3 :=
  rotation (roll P) (pitch P) (yaw P).

Definition to_transform (P : Pose) : transform :=
  mkTransform (orientation P) (position P).

(** Modelled from the spec: poses compose as rigid-body transforms,
    pose on pose; the second transform is expressed in the frame of the
    first. *)
Definition transform_compose (a b : transform) : transform :=
  {| rot := mat_mul (rot a) (rot b);
     trans := vec_add (trans a) (mat_vec (rot a) (trans b)) |}.

(** Modelled from the spec: applying a body-frame delta to a pose, whose
    code is not among the sources. The translation is turned into the frame
    of the pose and added, the angle increments are added and the angles
    wrapped again. *)
Definition apply_delta (P D : Pose) : Pose :=
  let t := vec_add (position P) (mat_vec (orientation P) (position D)) in
  {| x := v1 t; y := v2 t; z := v3 t;
     roll := wrap (roll P + roll D);
     pitch := wrap (pitch P + pitch D);
     yaw := wrap (yaw P + yaw D) |}.

(** *** ParticleFilter *)

Record Particle : Type := mkParticle { pose : Pose; weight : R }.

Inductive phase : Type := Initializing | Ready.

Record Filter : Type := mkFilter {
  phase_of : phase;
  particles : list Particle
}.

Inductive error : Type :=
| PreconditionViolation
| ConfigurationError.

(** A filter before [initialize]. *)
Definition uninitialized : Filter := mkFilter Initializing [].

Definition total_weight (ps : list Particle) : R :=
  fold_right (fun p acc => weight p + acc) 0 ps.

Definition uniform (ps : list Particle) : list Particle :=
  map (fun p => mkParticle (pose p) (1 / INR (length ps))) ps.

(** Modelled from the spec: [ParticleFilter.initialize], whose code is not
    among the sources. [particleCount] poses, each the prior perturbed by its
    own noise sample ([draws k] is the k-th draw), all of weight
    [1 / particleCount]. *)
Definition initialize (particleCount : nat) (prior : Pose)
    (initCovariance : CovarianceDiag) (draws : nat -> Pose) : Filter :=
  mkFilter Ready
    (map (fun k =>
            mkParticle (apply_delta prior (sample initCovariance (draws k)))
                       (1 / INR particleCount))
         (seq 0 particleCount)).

(** Modelled from the spec: the first half of [ParticleFilter.update], whose
    code is not among the sources: the prior weight of each particle times
    its likelihood. [likelihood P] is the likelihood of the real ping under
    the hypothesis [P] (sonar simulated at [P], compared beam by beam with
    the real ping); how the beams are paired is left open by the design, and
    the weight arithmetic does not depend on it. *)
Definition reweight (likelihood : Pose -> R) (ps : list Particle)
    : list Particle :=
  map (fun p => mkParticle (pose p) (weight p * likelihood (pose p))) ps.

(** Modelled from the spec: the second half of [ParticleFilter.update]:
    normalization, with the recovery policy for degenerate weights: a zero
    sum resets the weights to uniform instead of dividing by it. *)
Definition normalize (ps : list Particle) : list Particle :=
  let s := total_weight ps in
  if Req_dec_T s 0 then uniform ps
  else map (fun p => mkParticle (pose p) (weight p / s)) ps.

(** Modelled from the spec: [ParticleFilter.update], whose code is not among
    the sources. Calling it before [initialize] is a precondition
    violation. *)
Definition update (likelihood : Pose -> R) (f : Filter) : error + Filter :=
  match phase_of f with
  | Initializing => inl PreconditionViolation
  | Ready =>
      inr (mkFilter Ready (normalize (reweight likelihood (particles f))))
  end.

(** Modelled from the spec: the effective sample size, 1 over the sum of the
    squared weights. *)
Definition ESS (ps : list Particle) : R :=
  1 / fold_right (fun p acc => weight p * weight p + acc) 0 ps.

(** The particle whose stretch of the cumulative-weight sequence holds the
    point [u]; [acc] is the weight passed so far, [last] the particle to
    fall back on past the end. *)
Fixpoint select (ps : list Particle) (acc u : R) (last : Particle)
    : Particle :=
  match ps with
  | [] => last
  | p :: rest =>
      if Rlt_dec u (acc + weight p) then p
      else select rest (acc + weight p) u p
  end.

(** Modelled from the spec: systematic resampling, whose code is not among
    the sources. The points [offset + k / n], k = 0 .. n-1, walk the
    cumulative weights; the weights are uniform afterwards. *)
Definition systematic_resample (offset : R) (ps : list Particle)
    : list Particle :=
  match ps with
  | [] => []
  | p0 :: _ =>
      let n := length ps in
      map (fun k =>
             mkParticle
               (pose (select ps 0 (offset + INR k / INR n) p0))
               (1 / INR n))
          (seq 0 n)
  end.

(** Modelled from the spec: [ParticleFilter.maybeResample], whose code is
    not among the sources: resample when the effective sample size is below
    the threshold. The threshold and the random offset are arguments. *)
Definition maybeResample (threshold offset : R) (f : Filter)
    : error + Filter :=
  match phase_of f with
  | Initializing => inl PreconditionViolation
  | Ready =>
      if Rlt_dec (ESS (particles f)) threshold
      then inr (mkFilter Ready (systematic_resample offset (particles f)))
      else inr f
  end.

(** The angle of the point [(c, s)], in (-PI, PI]. *)
Definition atan2 (s c : R) : R :=
  if Rlt_dec 0 c then atan (s / c)
  else if Rlt_dec c 0
       then if Rle_dec 0 s then atan (s / c) + PI else atan (s / c) - PI
       else if Rlt_dec 0 s then PI / 2
            else if Rlt_dec s 0 then - (PI / 2)
                 else 0.

Definition weighted_sum (f : Pose -> R) (ps : list Particle) : R :=
  fold_right (fun p acc => weight p * f (pose p) + acc) 0 ps.

Definition weighted_mean (f : Pose -> R) (ps : list Particle) : R :=
  weighted_sum f ps / total_weight ps.

Definition circular_mean (f : Pose -> R) (ps : list Particle) : R :=
  atan2 (weighted_sum (fun P => sin (f P)) ps)
        (weighted_sum (fun P => cos (f P)) ps).

(** Modelled from the spec: [ParticleFilter.estimate], whose code is not
    among the sources: the weighted arithmetic mean of each coordinate and
    the weighted circular mean of each angle. *)
Definition estimate (ps : list Particle) : Pose :=
  {| x := weighted_mean x ps;
     y := weighted_mean y ps;
     z := weighted_mean z ps;
     roll := circular_mean roll ps;
     pitch := circular_mean pitch ps;
     yaw := circular_mean yaw ps |}.

(** *** Reading a covariance from the configuration *)

(** Modelled from the spec: the configuration check on a covariance, whose
    code is not among the sources. A covariance diagonal is six variances,
    none negative; anything else is a configuration error. *)
Definition covariance_of_list (qs : list Q) : error + CovarianceDiag :=
  match qs with
  | [a; b; c; d; e; f] =>
      if forallb (fun q => Qle_bool 0 q) qs
      then inr (mkCov (Q2R a) (Q2R b) (Q2R c) (Q2R d) (Q2R e) (Q2R f))
      else inl ConfigurationError
  | _ => inl ConfigurationError
  end.

End Core.

(** ** Vocabulary of the statements *)

Module Props.
Import Ros Node.

Definition is_init (e : event) : bool :=
  match e with EvInit _ => true | _ => false end.

Definition is_new (e : event) : bool :=
  match e with EvNew _ => true | _ => false end.

Definition is_createTimer (e : event) : bool :=
  match e with EvCreateTimer _ => true | _ => false end.

Definition is_callback (e : event) : bool :=
  match e with EvCallback _ _ _ => true | _ => false end.

Definition count (f : event -> bool) (tr : list event) : nat :=
  length (List.filter f tr).

(** The two timers [main] creates, from the parameters it reads. *)
Definition timer1 (ps : gmap string XmlRpcValue) : timer :=
  mkTimer (mkDuration (param_double ps "odom_rate" 1))
          AUVMotionModel.cb_updateMotion 0.

Definition timer2 (ps : gmap string XmlRpcValue) : timer :=
  mkTimer (mkDuration (param_double ps "meas_rate" 1))
          AUVMotionModel.cb_updateMeas 0.

(** What [main] does before it spins, and after. *)
Definition prologue (ps : gmap string XmlRpcValue) : list event :=
  [ EvRosInit "auv_motion_model"; EvNodeHandle "~"; EvNew 0; EvInit 0;
    EvCreateTimer (timer1 ps); EvCreateTimer (timer2 ps) ].

Definition epilogue : list event :=
  [ EvShutdown; EvDelete 0; EvLog "auv_motion_model finished" ].

(** The callback entry one expiration gives rise to, when the two timers
    act on a running model at address 0; an expiration that names no timer
    gives none. *)
Definition callback_event (i : nat) : list event :=
  match i with
  | 0%nat => [EvCallback AUVMotionModel.cb_updateMotion 0
                         (Some AUVMotionModel.Running)]
  | 1%nat => [EvCallback AUVMotionModel.cb_updateMeas 0
                         (Some AUVMotionModel.Running)]
  | _ => []
  end.

Definition callback_events (fs : list nat) : list event :=
  flat_map callback_event fs.

(** The model after the same expiration. *)
Definition tick (i : nat) (m : AUVMotionModel.t) : AUVMotionModel.t :=
  match i with
  | 0%nat => match AUVMotionModel.updateMotion m with
             | inr m' => m' | inl _ => m end
  | 1%nat => match AUVMotionModel.updateMeas m with
             | inr m' => m' | inl _ => m end
  | _ => m
  end.

Definition model_after (fs : list nat) (m : AUVMotionModel.t)
    : AUVMotionModel.t :=
  fold_left (fun m i => tick i m) fs m.

(** *** The launch description *)

(** The options the design document lists as the configuration. *)
Definition recognized_options : gset string :=
  {[ "particle_count"; "init_covariance"; "motion_covariance";
     "measurement_covariance"; "map_frame"; "odom_frame";
     "odometry_topic"; "mbes_pings_topic";
     "average_pose_topic"; "particle_poses_topic";
     "particle_sim_mbes_topic"; "average_mbes_topic" ]}.

(** The value of an argument: what the command line gives, else the
    default. *)
Definition arg_value (given : gmap string string) (name dflt : string)
    : string :=
  default dflt (given !! name).

(** The arguments of [auv_pf_launch] once evaluated. *)
Definition context (given : gmap string string) : gmap string string :=
  let mode := arg_value given "mode" "sim" in
  let filter := arg_value given "filter" "pf" in
  <["average_mbes_topic" :=
      arg_value given "average_mbes_topic" ("/" +:+ filter +:+ "/avg_mbes")]>
  (<["particle_sim_mbes_topic" :=
      arg_value given "particle_sim_mbes_topic"
                ("/" +:+ filter +:+ "/sim_mbes")]>
  (<["particle_poses_topic" :=
      arg_value given "particle_poses_topic"
                ("/" +:+ filter +:+ "/particle_poses")]>
  (<["average_pose_topic" :=
      arg_value given "average_pose_topic" ("/" +:+ filter +:+ "/avg_pose")]>
  (<["mbes_pings_topic" :=
      arg_value given "mbes_pings_topic" ("/" +:+ mode +:+ "/mbes_pings")]>
  (<["odometry_topic" :=
      arg_value given "odometry_topic" ("/" +:+ mode +:+ "/odom")]>
  (<["odom_frame" := arg_value given "odom_frame" "odom"]>
  (<["map_frame" := arg_value given "map_frame" "map"]>
  (<["measurement_covariance" :=
      arg_value given "measurement_covariance" "0.1"]>
  (<["motion_covariance" :=
      arg_value given "motion_covariance" "[0, 0, 0.0, 0.0, 0.0, 0.00]"]>
  (<["init_covariance" :=
      arg_value given "init_covariance" "[0, 0, 0.0, 0.0, 0.0, 0.0]"]>
  (<["particle_count" := arg_value given "particle_count" "1"]>
  (<["filter" := filter]>
  (<["debug_mode" := arg_value given "debug_mode" "True"]>
  (<["mode" := mode]> ∅)))))))))))))).

(** The private parameters of the [auv_pf] node, for a particle count that
    reads as the integer [count]. *)
Definition delivered (given : gmap string string) (count : Z)
    : gmap string XmlRpcValue :=
  let ctx := context given in
  let auto name := Launch.convert_auto (default EmptyString (ctx !! name)) in
  <["particle_sim_mbes_topic" := auto "particle_sim_mbes_topic"]>
  (<["particle_poses_topic" := auto "particle_poses_topic"]>
  (<["average_mbes_topic" := auto "average_mbes_topic"]>
  (<["average_pose_topic" := auto "average_pose_topic"]>
  (<["mbes_pings_topic" := auto "mbes_pings_topic"]>
  (<["odometry_topic" := auto "odometry_topic"]>
  (<["odom_frame" := auto "odom_frame"]>
  (<["map_frame" := auto "map_frame"]>
  (<["motion_covariance" := auto "motion_covariance"]>
  (<["measurement_covariance" := auto "measurement_covariance"]>
  (<["init_covariance" := auto "init_covariance"]>
  (<["particle_count" := XInt count]> ∅))))))))))).

(** The default an argument is declared with. *)
Definition default_of (lf : Launch.launch_file) (name : string)
    : option string :=
  Launch.arg_default
    <$> List.find (fun a => String.eqb (Launch.arg_name a) name)
                  (Launch.launch_args lf).

(** No variance off the horizontal plane: z, roll and pitch are fixed. *)
Definition planar (cov : Core.CovarianceDiag) : Prop :=
  Core.var_z cov = 0%R /\ Core.var_roll cov = 0%R
  /\ Core.var_pitch cov = 0%R.

(** A launched [auv_pf] node. *)
Definition auv_pf_node (output : string) (ps : gmap string XmlRpcValue)
    : Launch.node :=
  Launch.mkLaunched "auv_pf.py" "auv_particle_filter" "auv_pf" output ps.

(** *** Shutdown and dispatch *)

Definition is_delete (e : event) : bool :=
  match e with EvDelete _ => true | _ => false end.

Definition is_shutdown (e : event) : bool :=
  match e with EvShutdown => true | _ => false end.

(** *** Arguments and the parameters they reach *)

(** The topics the filter listens to, named after the [mode] by default, and
    the topics it publishes, named after the [filter]. *)
Definition input_topics : gset string :=
  {[ "odometry_topic"; "mbes_pings_topic" ]}.

Definition output_topics : gset string :=
  {[ "average_pose_topic"; "particle_poses_topic";
     "particle_sim_mbes_topic"; "average_mbes_topic" ]}.

(** What a launch shows of one parameter: per node, the output and the
    value. *)
Definition view (name : string) (r : option (list Launch.node))
    : option (list (string * option XmlRpcValue)) :=
  fmap (M := list)
       (fun n => (Launch.n_output n, Launch.n_params n !! name)) <$> r.

(** An absolute graph resource name: a slash, then letters, digits,
    underscores and slashes. *)
Definition name_char (c : ascii) : bool :=
  let n := nat_of_ascii c in
  ((65 <=? n) && (n <=? 90) || (97 <=? n) && (n <=? 122)
   || (48 <=? n) && (n <=? 57) || (n =? 95) || (n =? 47))%nat.

Definition absolute_name (s : string) : bool :=
  match s with
  | String "/" r => forallb name_char (list_ascii_of_string r)
  | _ => false
  end.

(** *** The estimate, in the words of the design *)

(** The sum of a quantity over the particles of a population. *)
Definition sum_over (g : Core.Particle -> R) (ps : list Core.Particle) : R :=
  fold_right Rplus 0%R (map g ps).

End Props.

Import Ros Node Launch Props.

(** ** The process wrapper *)

Lemma tick_running i m :
  AUVMotionModel.st m = AUVMotionModel.Running ->
  AUVMotionModel.st (tick i m) = AUVMotionModel.Running.
Proof.
  intros Hm. destruct i as [|[|i]]; [| |exact Hm].
  - unfold tick, AUVMotionModel.updateMotion. rewrite Hm. reflexivity.
  - unfold tick, AUVMotionModel.updateMeas. rewrite Hm. reflexivity.
Qed.

Lemma model_after_running fs : forall m,
  AUVMotionModel.st m = AUVMotionModel.Running ->
  AUVMotionModel.st (model_after fs m) = AUVMotionModel.Running.
Proof.
  induction fs as [|i fs IH]; intros m Hm; [exact Hm|].
  apply (IH (tick i m)), tick_running, Hm.
Qed.

(** One expiration, with two timers on one running model: the callback is
    entered on a running model, which stays running. *)
Lemma fire_running i nm ps m d1 d2 fs0 b tr :
  AUVMotionModel.st m = AUVMotionModel.Running ->
  fire i (mkWorld nm ps [Some m]
            [mkTimer d1 AUVMotionModel.cb_updateMotion 0;
             mkTimer d2 AUVMotionModel.cb_updateMeas 0] fs0 b tr)
  = (tt, mkWorld nm ps [Some (tick i m)]
            [mkTimer d1 AUVMotionModel.cb_updateMotion 0;
             mkTimer d2 AUVMotionModel.cb_updateMeas 0] fs0 b
            (tr ++ callback_event i)).
Proof.
  intros Hm. destruct i as [|[|i]]; unfold fire, tick; cbn.
  - unfold AUVMotionModel.updateMotion. rewrite Hm. reflexivity.
  - unfold AUVMotionModel.updateMeas. rewrite Hm. reflexivity.
  - rewrite app_nil_r. reflexivity.
Qed.

Lemma deliver_running fs : forall nm ps m d1 d2 fs0 b tr,
  AUVMotionModel.st m = AUVMotionModel.Running ->
  deliver fs (mkWorld nm ps [Some m]
                [mkTimer d1 AUVMotionModel.cb_updateMotion 0;
                 mkTimer d2 AUVMotionModel.cb_updateMeas 0] fs0 b tr)
  = (tt, mkWorld nm ps [Some (model_after fs m)]
                [mkTimer d1 AUVMotionModel.cb_updateMotion 0;
                 mkTimer d2 AUVMotionModel.cb_updateMeas 0] fs0 b
                (tr ++ callback_events fs)).
Proof.
  induction fs as [|i fs IH]; intros nm ps m d1 d2 fs0 b tr Hm.
  - cbn. rewrite app_nil_r. reflexivity.
  - cbn [deliver]. unfold mbind, M_bind.
    rewrite (fire_running i) by exact Hm.
    rewrite IH by (apply tick_running, Hm).
    rewrite <- app_assoc. reflexivity.
Qed.

(** The whole run, in closed form. *)
Lemma run_closed_form ps fs :
  run ps fs
  = mkWorld "/auv_motion_model" ps [None] [timer1 ps; timer2 ps] [] false
            (prologue ps ++ callback_events fs ++ epilogue).
Proof.
  unfold run, main, start, NodeHandle, ROS_INFO, waitForShutdown.
  cbv [mbind M_bind mret M_ret log_event ros_init nh_param_double
       this_node_getName new_AUVMotionModel call_init createTimer spin].
  cbn [this_node params heap timers firings ok trace length app lookup
       list_lookup insert list_insert fst snd].
  rewrite deliver_running by reflexivity.
  cbn. rewrite <- !app_assoc. reflexivity.
Qed.

Lemma count_app f l1 l2 : count f (l1 ++ l2) = (count f l1 + count f l2)%nat.
Proof. unfold count. rewrite List.filter_app, length_app. reflexivity. Qed.

Lemma callback_events_shape fs e :
  In e (callback_events fs) ->
  exists cb, e = EvCallback cb 0 (Some AUVMotionModel.Running).
Proof.
  unfold callback_events. rewrite in_flat_map. intros (i & _ & Hi).
  destruct i as [|[|i]]; cbn in Hi; [| |destruct Hi];
    (destruct Hi as [<-|[]]; eauto).
Qed.

Lemma callback_events_only_callbacks f fs :
  (forall cb p s, f (EvCallback cb p s) = false) ->
  count f (callback_events fs) = 0%nat.
Proof.
  intros Hf. induction fs as [|i fs IH]; [reflexivity|].
  change (callback_events (i :: fs))
    with (callback_event i ++ callback_events fs).
  rewrite count_app, IH.
  destruct i as [|[|i]]; unfold count; cbn; rewrite ?Hf; reflexivity.
Qed.

Lemma callback_events_count fs :
  count is_callback (callback_events fs)
  = length (List.filter (fun i => (i <? 2)%nat) fs).
Proof.
  induction fs as [|i fs IH]; [reflexivity|].
  change (callback_events (i :: fs))
    with (callback_event i ++ callback_events fs).
  rewrite count_app, IH.
  destruct i as [|[|i]]; reflexivity.
Qed.

(** C1. In every execution of the wrapper (any parameters, any sequence of
    timer expirations delivered while it spins), [init] is called exactly
    once, on the one motion model; the call comes before every timer
    creation and before every callback; both timers are created after it;
    and every callback is entered on a [Running] model, never on an
    [Uninitialized] one. Each expiration of one of the two timers does enter
    a callback, so the last part is not vacuous. *)
Theorem init_once_before_timers ps fs :
  let tr := trace (run ps fs) in
  count is_init tr = 1%nat
  /\ (exists pre post,
        tr = pre ++ EvInit 0 :: post
        /\ count is_createTimer pre = 0%nat
        /\ count is_callback pre = 0%nat
        /\ In (EvCreateTimer (timer1 ps)) post
        /\ In (EvCreateTimer (timer2 ps)) post
        /\ Forall (fun tm => t_obj tm = 0%nat) (timers (run ps fs)))
  /\ (forall cb p s,
        In (EvCallback cb p s) tr -> s = Some AUVMotionModel.Running)
  /\ count is_callback tr = length (List.filter (fun i => (i <? 2)%nat) fs).
Proof.
  cbv zeta. rewrite run_closed_form. cbn [trace timers].
  split; [|split; [|split]].
  - rewrite !count_app, callback_events_only_callbacks by reflexivity.
    reflexivity.
  - exists [EvRosInit "auv_motion_model"; EvNodeHandle "~"; EvNew 0],
           ([EvCreateTimer (timer1 ps); EvCreateTimer (timer2 ps)]
              ++ callback_events fs ++ epilogue).
    repeat split; cbn; auto.
  - intros cb p s H.
    apply in_app_or in H as [H|H]; [|apply in_app_or in H as [H|H]].
    + cbn in H. intuition discriminate.
    + apply callback_events_shape in H as [cb' H]. congruence.
    + cbn in H. intuition discriminate.
  - rewrite !count_app, callback_events_count.
    change (count is_callback (prologue ps)) with 0%nat.
    change (count is_callback epilogue) with 0%nat. lia.
Qed.

(** C2. The wrapper creates exactly two timers, in this order: one calling
    [updateMotion] with the period read from [odom_rate], one calling
    [updateMeas] with the period read from [meas_rate], both on the same,
    only [AUVMotionModel] instance. Each period is 1 when its parameter is
    absent and the stored double when there is one, and neither period
    depends on the other parameter. *)
Theorem timers_follow_rates ps fs :
  timers (run ps fs)
  = [ mkTimer (mkDuration (param_double ps "odom_rate" 1))
              AUVMotionModel.cb_updateMotion 0;
      mkTimer (mkDuration (param_double ps "meas_rate" 1))
              AUVMotionModel.cb_updateMeas 0 ]
  /\ count is_new (trace (run ps fs)) = 1%nat
  /\ (ps !! "odom_rate" = None ->
      t_period <$> timers (run ps fs) !! 0%nat = Some (mkDuration 1))
  /\ (ps !! "meas_rate" = None ->
      t_period <$> timers (run ps fs) !! 1%nat = Some (mkDuration 1))
  /\ (forall d, ps !! "odom_rate" = Some (XDouble d) ->
      t_period <$> timers (run ps fs) !! 0%nat = Some (mkDuration d))
  /\ (forall d, ps !! "meas_rate" = Some (XDouble d) ->
      t_period <$> timers (run ps fs) !! 1%nat = Some (mkDuration d))
  /\ (forall v, timers (run (<["meas_rate" := v]> ps) fs) !! 0%nat
                = timers (run ps fs) !! 0%nat)
  /\ (forall v, timers (run (<["odom_rate" := v]> ps) fs) !! 1%nat
                = timers (run ps fs) !! 1%nat).
Proof.
  rewrite run_closed_form. cbn [timers trace].
  split; [reflexivity|]. split.
  { rewrite !count_app, callback_events_only_callbacks by reflexivity.
    reflexivity. }
  unfold timer1, timer2, param_double. cbn.
  repeat split.
  - intros ->. reflexivity.
  - intros ->. reflexivity.
  - intros d ->. reflexivity.
  - intros d ->. reflexivity.
  - intros v. rewrite run_closed_form. cbn. unfold timer1, param_double.
    rewrite lookup_insert_ne by discriminate. reflexivity.
  - intros v. rewrite run_closed_form. cbn. unfold timer2, param_double.
    rewrite lookup_insert_ne by discriminate. reflexivity.
Qed.

(** ** The launch description *)

Lemma eval_args_step d ds given ctx v :
  resolve ctx (arg_default d) = Some v ->
  eval_args (d :: ds) given ctx
  = eval_args ds given (<[arg_name d := arg_value given (arg_name d) v]> ctx).
Proof.
  intros Hv. cbn [eval_args]. unfold arg_value.
  destruct (given !! arg_name d); cbn [default]; [reflexivity|].
  rewrite Hv. reflexivity.
Qed.

(** Argument values are treated as unknowns while a resolution is
    computed. *)
Ltac abstract_args :=
  repeat match goal with
         | |- context [arg_value ?g ?k ?d] =>
             let v := fresh "v" in
             generalize (arg_value g k d); intro v
         end.

Ltac arg_step v :=
  rewrite (eval_args_step _ _ _ _ v)
    by (cbn [arg_default]; abstract_args; vm_compute; reflexivity);
  cbn [arg_name].

Lemma eval_args_closed given :
  eval_args (launch_args auv_pf_launch) given ∅ = Some (context given).
Proof.
  cbn [launch_args auv_pf_launch].
  arg_step "sim". arg_step "True". arg_step "pf". arg_step "1".
  arg_step "[0, 0, 0.0, 0.0, 0.0, 0.0]".
  arg_step "[0, 0, 0.0, 0.0, 0.0, 0.00]".
  arg_step "0.1". arg_step "map". arg_step "odom".
  arg_step ("/" +:+ arg_value given "mode" "sim" +:+ "/odom").
  arg_step ("/" +:+ arg_value given "mode" "sim" +:+ "/mbes_pings").
  arg_step ("/" +:+ arg_value given "filter" "pf" +:+ "/avg_pose").
  arg_step ("/" +:+ arg_value given "filter" "pf" +:+ "/particle_poses").
  arg_step ("/" +:+ arg_value given "filter" "pf" +:+ "/sim_mbes").
  arg_step ("/" +:+ arg_value given "filter" "pf" +:+ "/avg_mbes").
  reflexivity.
Qed.

Lemma append_empty_r s : (s +:+ "")%string = s.
Proof.
  induction s as [|c s IH]; [reflexivity|].
  change (String c (s +:+ "") = String c s). f_equal. exact IH.
Qed.

Lemma eval_params_step ctx p ps acc s :
  resolve ctx (param_value p) = Some (s +:+ "") ->
  eval_params ctx (p :: ps) acc
  = match convert_value s (param_type p) with
    | Some v => eval_params ctx ps (<[param_name p := v]> acc)
    | None => None
    end.
Proof.
  rewrite append_empty_r. intros Hs. cbn [eval_params]. rewrite Hs.
  reflexivity.
Qed.

(** A parameter whose value is [$(arg name)] resolves to the argument. *)
Ltac param_step given name :=
  rewrite (eval_params_step _ _ _ _
             (default EmptyString (context given !! name)))
    by (unfold context; cbn [param_value]; abstract_args;
        vm_compute; reflexivity);
  cbn [param_name param_type].

Ltac context_lookup :=
  unfold context; abstract_args; vm_compute; reflexivity.

Lemma context_particle_count given :
  context given !! "particle_count"
  = Some (arg_value given "particle_count" "1").
Proof. context_lookup. Qed.

Ltac auto_step given name :=
  param_step given name; cbn [convert_value].

Lemma convert_value_int s :
  convert_value s (Some "int") = XInt <$> parse_int s.
Proof. reflexivity. Qed.

Ltac node_closed given :=
  unfold eval_node;
  cbn [node_params node_type node_pkg node_name node_output];
  param_step given "particle_count";
  rewrite context_particle_count; cbv [default from_option Datatypes.id];
  rewrite convert_value_int;
  destruct (parse_int (arg_value given "particle_count" "1")) as [count|];
  [|reflexivity];
  cbn [fmap option_fmap option_map];
  auto_step given "init_covariance";
  auto_step given "measurement_covariance";
  auto_step given "motion_covariance";
  auto_step given "map_frame";
  auto_step given "odom_frame";
  auto_step given "odometry_topic";
  auto_step given "mbes_pings_topic";
  auto_step given "average_pose_topic";
  auto_step given "average_mbes_topic";
  auto_step given "particle_poses_topic";
  auto_step given "particle_sim_mbes_topic";
  reflexivity.

Lemma eval_quiet_node given :
  eval_nodes (context given) (group_nodes quiet_group)
  = (fun count => [auv_pf_node "log" (delivered given count)])
      <$> parse_int (arg_value given "particle_count" "1").
Proof.
  cbn [group_nodes quiet_group eval_nodes].
  replace (eval_node _ _)
    with (auv_pf_node "log" <$>
            (delivered given <$>
               parse_int (arg_value given "particle_count" "1")));
    [destruct (parse_int _); reflexivity|].
  symmetry. node_closed given.
Qed.

Lemma eval_debug_node given :
  eval_nodes (context given) (group_nodes debug_group)
  = (fun count => [auv_pf_node "screen" (delivered given count)])
      <$> parse_int (arg_value given "particle_count" "1").
Proof.
  cbn [group_nodes debug_group eval_nodes].
  replace (eval_node _ _)
    with (auv_pf_node "screen" <$>
            (delivered given <$>
               parse_int (arg_value given "particle_count" "1")));
    [destruct (parse_int _); reflexivity|].
  symmetry. node_closed given.
Qed.

Lemma guard_debug_mode given :
  resolve (context given) "$(arg debug_mode)"
  = Some (arg_value given "debug_mode" "True").
Proof.
  rewrite <- (append_empty_r (arg_value given "debug_mode" "True")).
  context_lookup.
Qed.

(** The launch in closed form: it needs a [debug_mode] that reads as a
    boolean and a [particle_count] that reads as an integer, and then starts
    one [auv_pf] node. *)
Lemma launch_closed_form given :
  launch auv_pf_launch given
  = match convert_bool (arg_value given "debug_mode" "True"),
          parse_int (arg_value given "particle_count" "1") with
    | Some b, Some count =>
        Some [auv_pf_node (if b then "screen" else "log")
                          (delivered given count)]
    | _, _ => None
    end.
Proof.
  unfold launch. rewrite eval_args_closed.
  cbn [launch_groups auv_pf_launch eval_groups].
  rewrite eval_quiet_node, eval_debug_node.
  unfold ifunless_test. cbn [group_guard quiet_group debug_group].
  rewrite guard_debug_mode.
  destruct (convert_bool (arg_value given "debug_mode" "True")) as [[|]|];
    destruct (parse_int (arg_value given "particle_count" "1"));
    reflexivity.
Qed.

(** ** The estimation core: weights *)

Import Core.
Local Open Scope R_scope.

Lemma INR_length_nonzero {A} (l : list A) : l <> [] -> INR (length l) <> 0.
Proof.
  destruct l as [|a l]; [congruence|]. intros _.
  apply not_0_INR. discriminate.
Qed.

(** A population in which every particle has the weight [c]. *)
Lemma total_weight_const {A} (pose_of : A -> Pose) (c : R) (l : list A) :
  total_weight (map (fun a => mkParticle (pose_of a) c) l)
  = INR (length l) * c.
Proof.
  induction l as [|a l IH].
  - cbn. ring.
  - change (length (a :: l)) with (S (length l)). rewrite S_INR.
    cbn [map total_weight fold_right weight].
    unfold total_weight in IH. rewrite IH. ring.
Qed.

Lemma total_weight_uniform ps : ps <> [] -> total_weight (uniform ps) = 1.
Proof.
  intros Hne. unfold uniform. rewrite total_weight_const.
  field. apply INR_length_nonzero, Hne.
Qed.

Lemma total_weight_scaled ps s :
  total_weight (map (fun p => mkParticle (pose p) (weight p / s)) ps)
  = total_weight ps / s.
Proof.
  induction ps as [|p ps IH].
  - cbn. unfold Rdiv. ring.
  - cbn [map total_weight fold_right weight].
    unfold total_weight in IH. rewrite IH. unfold Rdiv. ring.
Qed.

Lemma normalize_length ps : length (normalize ps) = length ps.
Proof.
  unfold normalize, uniform.
  destruct (Req_dec_T (total_weight ps) 0); apply length_map.
Qed.

Lemma normalize_poses ps : map pose (normalize ps) = map pose ps.
Proof.
  unfold normalize, uniform.
  destruct (Req_dec_T (total_weight ps) 0);
    rewrite map_map; reflexivity.
Qed.

Lemma reweight_length lik ps : length (reweight lik ps) = length ps.
Proof. apply length_map. Qed.

Lemma reweight_poses lik ps : map pose (reweight lik ps) = map pose ps.
Proof. unfold reweight. rewrite map_map. reflexivity. Qed.

(** Normalization always leaves a non-empty population with weights that sum
    to 1: by division when the sum is not zero, by the reset when it is. *)
Lemma total_weight_normalize ps :
  ps <> [] -> total_weight (normalize ps) = 1.
Proof.
  intros Hne. unfold normalize.
  destruct (Req_dec_T (total_weight ps) 0) as [Hz|Hnz].
  - apply total_weight_uniform, Hne.
  - rewrite total_weight_scaled. field. exact Hnz.
Qed.

Lemma systematic_resample_total off ps :
  ps <> [] -> total_weight (systematic_resample off ps) = 1.
Proof.
  intros Hne. destruct ps as [|p0 ps]; [congruence|].
  unfold systematic_resample.
  rewrite (total_weight_const
             (fun k => pose (select (p0 :: ps) 0
                                    (off + INR k / INR (length (p0 :: ps)))
                                    p0))).
  rewrite length_seq. field. apply INR_length_nonzero. discriminate.
Qed.

Lemma systematic_resample_length off ps :
  length (systematic_resample off ps) = length ps.
Proof.
  destruct ps as [|p0 ps]; [reflexivity|].
  unfold systematic_resample. rewrite length_map, length_seq. reflexivity.
Qed.

(** C3. When the filter is [Ready] and the unnormalized weights (prior weight
    times likelihood) sum to zero, [update] does not fail: it returns a
    [Ready] filter with the same poses in which every particle has the weight
    [1 / particleCount]. *)
Theorem update_degenerate_resets_uniform (likelihood : Pose -> R) (f : Filter) :
  phase_of f = Ready ->
  total_weight (reweight likelihood (particles f)) = 0 ->
  exists f',
    update likelihood f = inr f'
    /\ phase_of f' = Ready
    /\ map pose (particles f') = map pose (particles f)
    /\ Forall (fun p => weight p = 1 / INR (length (particles f)))
              (particles f').
Proof.
  intros Hready Hzero. unfold update. rewrite Hready.
  eexists. split; [reflexivity|]. cbn [phase_of particles].
  split; [reflexivity|]. split.
  - rewrite normalize_poses, reweight_poses. reflexivity.
  - unfold normalize.
    destruct (Req_dec_T (total_weight (reweight likelihood (particles f))) 0)
      as [_|Hnz]; [|contradiction].
    unfold uniform. rewrite reweight_length.
    apply List.Forall_forall. intros p Hp.
    apply in_map_iff in Hp as (q & <- & _).
    reflexivity.
Qed.

Lemma update_degenerate_resets_uniform_witness :
  exists f',
    update (fun _ => 0)
      (mkFilter Ready [mkParticle (mkPose 0 0 0 0 0 0) (1 / 2);
                       mkParticle (mkPose 1 0 0 0 0 0) (1 / 2)]) = inr f'
    /\ phase_of f' = Ready
    /\ map pose (particles f')
       = [mkPose 0 0 0 0 0 0; mkPose 1 0 0 0 0 0]
    /\ Forall (fun p => weight p = 1 / INR 2) (particles f').
Proof.
  apply (update_degenerate_resets_uniform (fun _ => 0)
           (mkFilter Ready [mkParticle (mkPose 0 0 0 0 0 0) (1 / 2);
                            mkParticle (mkPose 1 0 0 0 0 0) (1 / 2)])).
  - reflexivity.
  - cbn. lra.
Defined.

(** C4. After [update] on a [Ready] filter in which at least one particle
    has a nonzero likelihood, the weights sum to 1; and after [maybeResample]
    (whatever the threshold and the random offset, whether it resamples or
    not) they sum to 1 again. *)
Theorem weights_sum_to_one (likelihood : Pose -> R) (f : Filter)
    (threshold offset : R) :
  phase_of f = Ready ->
  Exists (fun p => likelihood (pose p) <> 0) (particles f) ->
  exists f1 f2,
    update likelihood f = inr f1
    /\ total_weight (particles f1) = 1
    /\ length (particles f1) = length (particles f)
    /\ maybeResample threshold offset f1 = inr f2
    /\ total_weight (particles f2) = 1
    /\ length (particles f2) = length (particles f).
Proof.
  intros Hready Hex.
  assert (Hne : particles f <> []).
  { intros E. rewrite E in Hex. inversion Hex. }
  assert (Hne' : normalize (reweight likelihood (particles f)) <> []).
  { intros E. apply (f_equal (@length _)) in E.
    rewrite normalize_length, reweight_length in E.
    destruct (particles f); [congruence|discriminate]. }
  assert (H1 : total_weight (normalize (reweight likelihood (particles f)))
               = 1).
  { apply total_weight_normalize. intros E.
    apply (f_equal (@length _)) in E. rewrite reweight_length in E.
    destruct (particles f); [congruence|discriminate]. }
  set (N := normalize (reweight likelihood (particles f))) in *.
  assert (Hlen : length N = length (particles f)).
  { unfold N. rewrite normalize_length, reweight_length. reflexivity. }
  assert (Hup : update likelihood f = inr (mkFilter Ready N)).
  { unfold update. rewrite Hready. reflexivity. }
  exists (mkFilter Ready N).
  destruct (Rlt_dec (ESS N) threshold) as [Hlow|Hhigh].
  - exists (mkFilter Ready (systematic_resample offset N)).
    cbn [particles]. repeat split; try assumption.
    + unfold maybeResample. cbn [phase_of particles].
      destruct (Rlt_dec (ESS N) threshold); [reflexivity|contradiction].
    + apply systematic_resample_total, Hne'.
    + rewrite systematic_resample_length. exact Hlen.
  - exists (mkFilter Ready N).
    cbn [particles]. repeat split; try assumption.
    unfold maybeResample. cbn [phase_of particles].
    destruct (Rlt_dec (ESS N) threshold); [contradiction|reflexivity].
Qed.

(** ** The estimation core: noise and poses *)

Lemma wrap_wrapped a : wrapped_angle a -> wrap a = a.
Proof.
  intros [Hlo Hhi]. unfold wrap.
  assert (Hpi := PI_RGT_0).
  assert (Hup : up (- ((a + PI) / (2 * PI))) = 0%Z).
  { symmetry. apply tech_up.
    - assert (0 < (a + PI) / (2 * PI)); [|cbn; lra].
      apply Rdiv_lt_0_compat; lra.
    - assert ((a + PI) / (2 * PI) <= 1); [|cbn; lra].
      apply (Rmult_le_reg_r (2 * PI)); [lra|].
      unfold Rdiv. rewrite Rmult_assoc, Rinv_l by lra. lra. }
  rewrite Hup. cbn. ring.
Qed.

(** The representative chosen by [wrap] is in range, whatever the angle. *)
Lemma wrap_in_range a : wrapped_angle (wrap a).
Proof.
  unfold wrapped_angle, wrap.
  assert (Hpi := PI_RGT_0).
  destruct (archimed (- ((a + PI) / (2 * PI)))) as [Hgt Hle].
  set (k := IZR (up (- ((a + PI) / (2 * PI))))) in *.
  assert (E : a = 2 * PI * ((a + PI) / (2 * PI)) - PI) by (field; lra).
  split.
  - apply (Rmult_lt_compat_l (2 * PI)) in Hgt; [|lra]. lra.
  - apply (Rmult_le_compat_l (2 * PI)) in Hle; [|lra]. lra.
Qed.

Lemma sample_zero g : sample zero_covariance g = mkPose 0 0 0 0 0 0.
Proof.
  unfold sample, zero_covariance. cbn. rewrite sqrt_0.
  f_equal; ring.
Qed.

Lemma rotation_zero :
  rotation 0 0 0 = mkMat 1 0 0 0 1 0 0 0 1.
Proof. unfold rotation. rewrite cos_0, sin_0. f_equal; ring. Qed.

Lemma mat_mul_identity m : mat_mul m (mkMat 1 0 0 0 1 0 0 0 1) = m.
Proof. destruct m. unfold mat_mul. cbn. f_equal; ring. Qed.

Lemma mat_vec_zero m : mat_vec m (mkVec 0 0 0) = mkVec 0 0 0.
Proof. unfold mat_vec. cbn. f_equal; ring. Qed.

Lemma vec_add_zero v : vec_add v (mkVec 0 0 0) = v.
Proof. destruct v. unfold vec_add. cbn. f_equal; ring. Qed.

(** C5. A zero variance on an axis makes the sampled perturbation zero on
    that axis, whatever the Gaussian draw; so the sample of an all-zero
    covariance is the zero delta, and composing it onto a pose is a no-op:
    as rigid-body transforms for every pose, and as poses for every pose
    whose angles are in (-PI, PI], as the data model keeps them. *)
Theorem zero_noise_is_noop (P g : Pose) :
  (forall cov,
      (var_x cov = 0 -> x (sample cov g) = 0)
      /\ (var_y cov = 0 -> y (sample cov g) = 0)
      /\ (var_z cov = 0 -> z (sample cov g) = 0)
      /\ (var_roll cov = 0 -> roll (sample cov g) = 0)
      /\ (var_pitch cov = 0 -> pitch (sample cov g) = 0)
      /\ (var_yaw cov = 0 -> yaw (sample cov g) = 0))
  /\ sample zero_covariance g = mkPose 0 0 0 0 0 0
  /\ transform_compose (to_transform P)
                       (to_transform (sample zero_covariance g))
     = to_transform P
  /\ (wrapped P -> apply_delta P (sample zero_covariance g) = P).
Proof.
  split; [|split; [|split]].
  - intros cov. unfold sample. cbn.
    repeat split; intros ->; rewrite sqrt_0; ring.
  - apply sample_zero.
  - rewrite sample_zero. unfold transform_compose, to_transform.
    cbn [rot trans]. unfold orientation, position. cbn [x y z roll pitch yaw].
    rewrite rotation_zero, mat_mul_identity, mat_vec_zero, vec_add_zero.
    reflexivity.
  - intros (Hr & Hp & Hy). rewrite sample_zero.
    unfold apply_delta, position. cbn [x y z roll pitch yaw].
    rewrite mat_vec_zero, vec_add_zero. cbn [v1 v2 v3].
    rewrite !Rplus_0_r, !wrap_wrapped by assumption.
    destruct P; reflexivity.
Qed.

(** ** The estimation core: the estimate *)

Lemma atan2_neg_axis c : c < 0 -> atan2 0 c = PI.
Proof.
  intros Hc. unfold atan2.
  destruct (Rlt_dec 0 c); [lra|].
  destruct (Rlt_dec c 0); [|lra].
  destruct (Rle_dec 0 0); [|lra].
  unfold Rdiv. rewrite Rmult_0_l, atan_0. ring.
Qed.

Lemma cos_PI_minus a : cos (PI - a) = - cos a.
Proof.
  replace (PI - a) with (- a + PI) by ring.
  rewrite neg_cos, cos_neg. reflexivity.
Qed.

Lemma sin_minus_PI_plus a : sin (- PI + a) = - sin a.
Proof.
  replace (- PI + a) with (- (PI - a)) by ring.
  rewrite sin_neg, sin_PI_x. reflexivity.
Qed.

Lemma cos_minus_PI_plus a : cos (- PI + a) = - cos a.
Proof.
  replace (- PI + a) with (- (PI - a)) by ring.
  rewrite cos_neg. apply cos_PI_minus.
Qed.

(** Two equally weighted angles on either side of the cut average to the
    cut, not to zero. *)
Lemma circular_mean_across_cut (f : Pose -> R) (P1 P2 : Pose) (w eps : R) :
  0 < w -> 0 < eps < PI / 2 ->
  f P1 = PI - eps -> f P2 = - PI + eps ->
  circular_mean f [mkParticle P1 w; mkParticle P2 w] = PI.
Proof.
  intros Hw [He1 He2] H1 H2. unfold circular_mean, weighted_sum.
  cbn [fold_right pose weight]. rewrite H1, H2.
  rewrite sin_PI_x, sin_minus_PI_plus, cos_PI_minus, cos_minus_PI_plus.
  replace (w * sin eps + (w * - sin eps + 0)) with 0 by ring.
  apply atan2_neg_axis.
  assert (0 < cos eps) by (apply cos_gt_0; lra).
  nra.
Qed.

(** The angle of a point of the circle is recovered from its sine and
    cosine, scaled by any positive weight. *)
Lemma atan2_sin_cos (a w : R) :
  wrapped_angle a -> 0 < w -> atan2 (w * sin a) (w * cos a) = a.
Proof.
  intros [Hlo Hhi] Hw. assert (Hpi := PI_RGT_0). unfold atan2.
  assert (Hq : cos a <> 0 -> w * sin a / (w * cos a) = tan a).
  { intros Hc. unfold tan. field. split; lra. }
  destruct (Rlt_dec 0 (w * cos a)) as [Hc|Hc].
  - (* right half plane *)
    assert (0 < cos a) by nra.
    rewrite Hq by lra. apply atan_tan.
    destruct (Rle_dec (PI / 2) a) as [H1|H1].
    { assert (cos a <= 0) by (apply cos_le_0; lra). lra. }
    destruct (Rle_dec a (- (PI / 2))) as [H2|H2].
    { assert (cos (- a) <= 0) by (apply cos_le_0; lra).
      rewrite cos_neg in *. lra. }
    lra.
  - destruct (Rlt_dec (w * cos a) 0) as [Hc'|Hc'].
    + (* left half plane *)
      assert (Hneg : cos a < 0) by nra.
      assert (Hout : a < - (PI / 2) \/ PI / 2 < a).
      { destruct (Rlt_dec a (- (PI / 2))); [left; assumption|].
        destruct (Rlt_dec (PI / 2) a); [right; assumption|].
        assert (0 <= cos a) by (apply cos_ge_0; lra). lra. }
      rewrite Hq by lra.
      destruct (Rle_dec 0 (w * sin a)) as [Hs|Hs].
      * assert (Hup : PI / 2 < a).
        { destruct Hout as [Hl|Hr]; [|exact Hr].
          assert (sin a < 0) by (apply sin_lt_0_var; lra). nra. }
        replace (tan a) with (tan (a - PI)).
        { rewrite atan_tan by lra. ring. }
        replace a with (PI + (a - PI)) at 2 by ring.
        symmetry. apply Rtrigo_facts.tan_pi_plus.
        replace (a - PI) with (- (PI - a)) by ring.
        rewrite cos_neg, cos_PI_minus. lra.
      * assert (Hdown : a < - (PI / 2)).
        { destruct Hout as [Hl|Hr]; [exact Hl|].
          assert (0 <= sin a) by (apply sin_ge_0; lra). nra. }
        replace (tan a) with (tan (PI + a)).
        { rewrite atan_tan by lra. ring. }
        apply Rtrigo_facts.tan_pi_plus. lra.
    + (* on the vertical axis *)
      assert (Hz : cos a = 0) by nra.
      assert (Haxis : a = PI / 2 \/ a = - (PI / 2)).
      { destruct (Rlt_dec (PI / 2) a).
        { assert (cos a < 0) by (apply cos_lt_0; lra). lra. }
        destruct (Rlt_dec a (- (PI / 2))).
        { assert (cos (- a) < 0) by (apply cos_lt_0; lra).
          rewrite cos_neg in *. lra. }
        destruct (Req_dec_T a (PI / 2)); [left; assumption|].
        destruct (Req_dec_T a (- (PI / 2))); [right; assumption|].
        assert (0 < cos a) by (apply cos_gt_0; lra). lra. }
      destruct Haxis as [-> | ->].
      * rewrite sin_PI2.
        destruct (Rlt_dec 0 (w * 1)); [reflexivity|lra].
      * rewrite sin_neg, sin_PI2.
        destruct (Rlt_dec 0 (w * - (1))); [lra|].
        destruct (Rlt_dec (w * - (1)) 0); [reflexivity|lra].
Qed.

(** A population of one: its estimate is the particle's own pose. *)
Lemma estimate_single (P : Pose) (w : R) :
  wrapped P -> 0 < w -> estimate [mkParticle P w] = P.
Proof.
  intros (Hr & Hp & Hy) Hw. destruct P as [px py pz r p yw].
  cbn [roll pitch yaw] in *.
  unfold estimate, weighted_mean, circular_mean, weighted_sum, total_weight.
  cbn [fold_right pose weight x y z roll pitch yaw].
  rewrite !Rplus_0_r, !atan2_sin_cos by assumption.
  f_equal; field; lra.
Qed.

Lemma normalize_single (P : Pose) (w : R) :
  normalize [mkParticle P w] = [mkParticle P 1].
Proof.
  unfold normalize, uniform, total_weight.
  cbn [fold_right weight pose map length INR].
  destruct (Req_dec_T (w + 0) 0) as [Hz|Hnz]; do 2 f_equal; field.
  lra.
Qed.

Lemma systematic_resample_single (offset : R) (P : Pose) (w : R) :
  systematic_resample offset [mkParticle P w] = [mkParticle P 1].
Proof.
  unfold systematic_resample. cbn [length seq map select INR weight].
  destruct (Rlt_dec (offset + 0 / 1) (0 + w)); cbn [pose];
    do 2 f_equal; field.
Qed.

(** The sums of the estimate run over every particle, each with its own
    weight. *)
Lemma weighted_sum_sum_over (f : Pose -> R) ps :
  weighted_sum f ps = sum_over (fun p => weight p * f (pose p)) ps.
Proof.
  unfold weighted_sum, sum_over.
  induction ps as [|p ps IH]; [reflexivity|].
  cbn [fold_right map]. rewrite IH. reflexivity.
Qed.

Lemma total_weight_sum_over ps : total_weight ps = sum_over weight ps.
Proof.
  unfold total_weight, sum_over.
  induction ps as [|p ps IH]; [reflexivity|].
  cbn [fold_right map]. rewrite IH. reflexivity.
Qed.

(** The circular mean is the direction of the resultant: when the weighted
    sines and cosines add up to [rho * sin theta] and [rho * cos theta] with
    [rho] positive and [theta] in (-PI, PI], it is [theta]. *)
Lemma circular_mean_resultant (f : Pose -> R) ps rho theta :
  0 < rho -> wrapped_angle theta ->
  sum_over (fun p => weight p * sin (f (pose p))) ps = rho * sin theta ->
  sum_over (fun p => weight p * cos (f (pose p))) ps = rho * cos theta ->
  circular_mean f ps = theta.
Proof.
  intros Hrho Hth Hs Hc. unfold circular_mean.
  rewrite (weighted_sum_sum_over (fun P => sin (f P))), Hs.
  rewrite (weighted_sum_sum_over (fun P => cos (f P))), Hc.
  apply atan2_sin_cos; assumption.
Qed.

(** C6. For every population, whatever the weights: each coordinate of the
    estimate is the sum of weight times coordinate over the particles,
    divided by the sum of the weights; and each angle of the estimate is the
    direction of the resultant of the weighted unit vectors, that is, the
    one angle [theta] in (-PI, PI] with the weighted sines adding up to
    [rho * sin theta] and the weighted cosines to [rho * cos theta] for a
    positive [rho]. So two particles at a quarter turn left and right give
    the angle of the heavier one, with the coordinates weighted likewise;
    and two particles of equal weight at [PI - eps] and [- PI + eps] give
    PI, not 0. *)
Theorem estimate_is_weighted_circular_mean :
  (forall ps,
      x (estimate ps)
      = sum_over (fun p => weight p * x (pose p)) ps / sum_over weight ps
      /\ y (estimate ps)
         = sum_over (fun p => weight p * y (pose p)) ps / sum_over weight ps
      /\ z (estimate ps)
         = sum_over (fun p => weight p * z (pose p)) ps / sum_over weight ps)
  /\ (forall ps rho theta,
        0 < rho -> wrapped_angle theta ->
        (sum_over (fun p => weight p * sin (roll (pose p))) ps
         = rho * sin theta ->
         sum_over (fun p => weight p * cos (roll (pose p))) ps
         = rho * cos theta ->
         roll (estimate ps) = theta)
        /\ (sum_over (fun p => weight p * sin (pitch (pose p))) ps
            = rho * sin theta ->
            sum_over (fun p => weight p * cos (pitch (pose p))) ps
            = rho * cos theta ->
            pitch (estimate ps) = theta)
        /\ (sum_over (fun p => weight p * sin (yaw (pose p))) ps
            = rho * sin theta ->
            sum_over (fun p => weight p * cos (yaw (pose p))) ps
            = rho * cos theta ->
            yaw (estimate ps) = theta))
  /\ (forall (P1 P2 : Pose) (w1 w2 : R),
        0 < w2 < w1 ->
        yaw P1 = PI / 2 -> yaw P2 = - (PI / 2) ->
        let e := estimate [mkParticle P1 w1; mkParticle P2 w2] in
        yaw e = PI / 2
        /\ x e = (w1 * x P1 + w2 * x P2) / (w1 + w2)
        /\ y e = (w1 * y P1 + w2 * y P2) / (w1 + w2)
        /\ z e = (w1 * z P1 + w2 * z P2) / (w1 + w2))
  /\ (forall (P1 P2 : Pose) (w eps : R),
        0 < w -> 0 < eps < PI / 2 ->
        let e := estimate [mkParticle P1 w; mkParticle P2 w] in
        x e = (x P1 + x P2) / 2
        /\ y e = (y P1 + y P2) / 2
        /\ z e = (z P1 + z P2) / 2
        /\ (roll P1 = PI - eps -> roll P2 = - PI + eps ->
            roll e = PI /\ roll e <> 0)
        /\ (pitch P1 = PI - eps -> pitch P2 = - PI + eps ->
            pitch e = PI /\ pitch e <> 0)
        /\ (yaw P1 = PI - eps -> yaw P2 = - PI + eps ->
            yaw e = PI /\ yaw e <> 0)).
Proof.
  assert (Hpi := PI_RGT_0).
  split; [|split; [|split]].
  - intros ps. unfold estimate, weighted_mean. cbn [x y z].
    rewrite !weighted_sum_sum_over, total_weight_sum_over.
    repeat split.
  - intros ps rho theta Hrho Hth. unfold estimate. cbn [roll pitch yaw].
    repeat split; intros Hs Hc;
      apply (circular_mean_resultant _ ps rho theta); assumption.
  - intros P1 P2 w1 w2 [Hw2 Hw] H1 H2 e. unfold e, estimate.
    cbn [x y z yaw]. split.
    + apply (circular_mean_resultant yaw _ (w1 - w2) (PI / 2)).
      * lra.
      * unfold wrapped_angle. lra.
      * unfold sum_over. cbn [map fold_right pose weight].
        rewrite H1, H2, sin_neg, sin_PI2. ring.
      * unfold sum_over. cbn [map fold_right pose weight].
        rewrite H1, H2, cos_neg, cos_PI2. ring.
    + unfold weighted_mean, weighted_sum, total_weight.
      cbn [fold_right pose weight]. repeat split; field; lra.
  - intros P1 P2 w eps Hw Heps e.
    assert (Hmean : forall f,
               weighted_mean f [mkParticle P1 w; mkParticle P2 w]
               = (f P1 + f P2) / 2).
    { intros f. unfold weighted_mean, weighted_sum, total_weight.
      cbn [fold_right pose weight]. field. lra. }
    assert (Hcut : forall f, f P1 = PI - eps -> f P2 = - PI + eps ->
               circular_mean f [mkParticle P1 w; mkParticle P2 w] = PI
               /\ circular_mean f [mkParticle P1 w; mkParticle P2 w] <> 0).
    { intros f H1 H2.
      rewrite (circular_mean_across_cut f P1 P2 w eps) by assumption.
      split; [reflexivity|lra]. }
    unfold e, estimate. cbn [x y z roll pitch yaw].
    repeat split; try apply Hmean; apply Hcut; assumption.
Qed.

(** ** The launch description: what the node receives *)

Lemma dom_delivered given count :
  dom (delivered given count) = recognized_options.
Proof.
  unfold delivered, recognized_options. cbv zeta.
  rewrite !dom_insert_L, dom_empty_L. set_solver.
Qed.

Lemma delivered_particle_count given count :
  delivered given count !! "particle_count" = Some (XInt count).
Proof.
  unfold delivered. cbv zeta.
  rewrite !lookup_insert_ne by discriminate. apply lookup_insert_eq.
Qed.

Lemma arg_value_insert_eq given name v dflt :
  arg_value (<[name := v]> given) name dflt = v.
Proof. unfold arg_value. rewrite lookup_insert_eq. reflexivity. Qed.

Lemma arg_value_insert_ne given name name' v dflt :
  name <> name' ->
  arg_value (<[name := v]> given) name' dflt = arg_value given name' dflt.
Proof.
  intros Hne. unfold arg_value. rewrite lookup_insert_ne by exact Hne.
  reflexivity.
Qed.

(** Setting [debug_mode] changes that argument and no other. *)
Lemma context_insert_debug given v :
  context (<["debug_mode" := v]> given) = <["debug_mode" := v]> (context given).
Proof.
  unfold context. cbv zeta.
  rewrite !arg_value_insert_eq.
  rewrite !(arg_value_insert_ne given "debug_mode") by discriminate.
  rewrite !(insert_insert_ne _ "debug_mode") by discriminate.
  rewrite insert_insert_eq. reflexivity.
Qed.

(** [debug_mode] does not reach the parameters. *)
Lemma delivered_insert_debug given v :
  delivered (<["debug_mode" := v]> given) = delivered given.
Proof.
  unfold delivered. cbv zeta. rewrite context_insert_debug.
  rewrite !lookup_insert_ne by discriminate. reflexivity.
Qed.

(** Reading one parameter off [delivered]. *)
Ltac delivered_lookup :=
  unfold delivered; cbv zeta;
  rewrite !lookup_insert_ne by discriminate;
  rewrite lookup_insert_eq.

(** What a launch that succeeds has started. *)
Lemma launch_inv given ns :
  launch auv_pf_launch given = Some ns ->
  exists b count,
    convert_bool (arg_value given "debug_mode" "True") = Some b
    /\ parse_int (arg_value given "particle_count" "1") = Some count
    /\ ns = [auv_pf_node (if b then "screen" else "log")
                         (delivered given count)].
Proof.
  rewrite launch_closed_form.
  destruct (convert_bool _) as [b|]; [|discriminate].
  destruct (parse_int _) as [count|]; [|discriminate].
  intros [= <-]. eauto.
Qed.

(** C7. The launch description declares the twelve options the design lists
    as arguments, after three of its own ([mode], [debug_mode], [filter])
    that only shape defaults and the choice of group. Every [auv_pf] node it
    starts, whatever is set on the command line, receives exactly those
    twelve options as parameters and no other, with [particle_count] an
    integer; and with nothing set the launch does start the node, with
    values of the listed kinds: an integer count, two covariances that read
    as six reals, one real measurement covariance, and names for the frames
    and topics. *)
Theorem launch_delivers_recognized_options :
  arg_name <$> launch_args auv_pf_launch
  = [ "mode"; "debug_mode"; "filter";
      "particle_count"; "init_covariance"; "motion_covariance";
      "measurement_covariance"; "map_frame"; "odom_frame";
      "odometry_topic"; "mbes_pings_topic"; "average_pose_topic";
      "particle_poses_topic"; "particle_sim_mbes_topic";
      "average_mbes_topic" ]%string
  /\ (forall given ns n,
      launch auv_pf_launch given = Some ns -> In n ns ->
      n_name n = "auv_pf"
      /\ dom (n_params n) = recognized_options
      /\ exists count, n_params n !! "particle_count" = Some (XInt count))
  /\ (exists n,
        launch auv_pf_launch ∅ = Some [n]
        /\ n_params n !! "particle_count" = Some (XInt 1)
        /\ (exists s qs, n_params n !! "init_covariance" = Some (XString s)
                         /\ read_list s = Some qs
                         /\ length qs = 6%nat)
        /\ (exists s qs, n_params n !! "motion_covariance" = Some (XString s)
                         /\ read_list s = Some qs
                         /\ length qs = 6%nat)
        /\ n_params n !! "measurement_covariance"
           = Some (XDouble 0x1.999999999999ap-4)
        /\ n_params n !! "map_frame" = Some (XString "map")
        /\ n_params n !! "odom_frame" = Some (XString "odom")
        /\ n_params n !! "odometry_topic" = Some (XString "/sim/odom")
        /\ n_params n !! "mbes_pings_topic" = Some (XString "/sim/mbes_pings")
        /\ n_params n !! "average_pose_topic" = Some (XString "/pf/avg_pose")
        /\ n_params n !! "particle_poses_topic"
           = Some (XString "/pf/particle_poses")
        /\ n_params n !! "particle_sim_mbes_topic"
           = Some (XString "/pf/sim_mbes")
        /\ n_params n !! "average_mbes_topic" = Some (XString "/pf/avg_mbes")).
Proof.
  split; [reflexivity|]. split.
  - intros given ns n Hl Hn.
    apply launch_inv in Hl as (b & count & _ & _ & ->).
    destruct Hn as [<-|[]]. cbn [auv_pf_node n_name n_params].
    split; [reflexivity|]. split; [apply dom_delivered|].
    exists count. apply delivered_particle_count.
  - exists (auv_pf_node "screen" (delivered ∅ 1)).
    split; [rewrite launch_closed_form; reflexivity|].
    cbn [auv_pf_node n_params].
    split; [apply delivered_particle_count|].
    split.
    { exists "[0, 0, 0.0, 0.0, 0.0, 0.0]"%string. eexists.
      split; [delivered_lookup; vm_compute; reflexivity|].
      split; [vm_compute; reflexivity|reflexivity]. }
    split.
    { exists "[0, 0, 0.0, 0.0, 0.0, 0.00]"%string. eexists.
      split; [delivered_lookup; vm_compute; reflexivity|].
      split; [vm_compute; reflexivity|reflexivity]. }
    repeat split; delivered_lookup; vm_compute; reflexivity.
Qed.

Lemma launch_delivers_recognized_options_witness :
  let given : gmap string string :=
    {[ "mode" := "real"; "particle_count" := "500" ]}%string in
  let n := auv_pf_node "screen" (delivered given 500) in
  launch auv_pf_launch given = Some [n]
  /\ n_name n = "auv_pf"
  /\ dom (n_params n) = recognized_options
  /\ exists count, n_params n !! "particle_count" = Some (XInt count).
Proof.
  intros given n.
  assert (Hl : launch auv_pf_launch given = Some [n])
    by (rewrite launch_closed_form; reflexivity).
  split; [exact Hl|].
  apply (proj1 (proj2 launch_delivers_recognized_options) given [n] n Hl).
  left. reflexivity.
Defined.

(** C10. The two groups are guarded by [unless] and [if] of the same
    [debug_mode] argument and list the same parameters. For a [debug_mode]
    that reads as true and one that reads as false, all else equal, each
    launch starts exactly one node, named [auv_pf]; the two nodes have the
    same executable, package and parameters (names and values), and differ
    in their output: the screen when debugging, the log otherwise. The one
    exception is a [particle_count] set on the command line to something that
    is not an integer: then neither launch starts anything. *)
Theorem one_node_for_either_debug_mode :
  (exists v, group_guard quiet_group = Unless v
             /\ group_guard debug_group = If v)
  /\ node_params <$> group_nodes quiet_group
     = node_params <$> group_nodes debug_group
  /\ (forall given s_on s_off,
        convert_bool s_on = Some true ->
        convert_bool s_off = Some false ->
        (exists n_on n_off,
            launch auv_pf_launch (<["debug_mode" := s_on]> given)
            = Some [n_on]
            /\ launch auv_pf_launch (<["debug_mode" := s_off]> given)
               = Some [n_off]
            /\ n_name n_on = "auv_pf" /\ n_name n_off = "auv_pf"
            /\ n_output n_on = "screen" /\ n_output n_off = "log"
            /\ n_params n_on = n_params n_off
            /\ n_type n_on = n_type n_off
            /\ n_pkg n_on = n_pkg n_off)
        \/ (exists s, given !! "particle_count" = Some s
                      /\ parse_int s = None
                      /\ launch auv_pf_launch (<["debug_mode" := s_on]> given)
                         = None
                      /\ launch auv_pf_launch (<["debug_mode" := s_off]> given)
                         = None)).
Proof.
  split; [eexists; split; reflexivity|]. split; [reflexivity|].
  intros given s_on s_off Hon Hoff.
  rewrite !launch_closed_form, !arg_value_insert_eq, Hon, Hoff.
  rewrite !(arg_value_insert_ne given "debug_mode") by discriminate.
  rewrite !delivered_insert_debug.
  destruct (parse_int (arg_value given "particle_count" "1"))
    as [count|] eqn:Hcount.
  - left. do 2 eexists. repeat split; reflexivity.
  - right. unfold arg_value in Hcount.
    destruct (given !! "particle_count") as [s|]; [|discriminate Hcount].
    exists s. auto.
Qed.

Lemma one_node_for_either_debug_mode_witness :
  exists n_on n_off,
    launch auv_pf_launch (<["debug_mode" := "true"]> ∅) = Some [n_on]
    /\ launch auv_pf_launch (<["debug_mode" := "0"]> ∅) = Some [n_off]
    /\ n_name n_on = "auv_pf" /\ n_name n_off = "auv_pf"
    /\ n_output n_on = "screen" /\ n_output n_off = "log"
    /\ n_params n_on = n_params n_off
    /\ n_type n_on = n_type n_off
    /\ n_pkg n_on = n_pkg n_off.
Proof.
  destruct (proj2 (proj2 one_node_for_either_debug_mode) ∅ "true" "0")
    as [H|(s & Hs & _)].
  - reflexivity.
  - reflexivity.
  - exact H.
  - discriminate Hs.
Defined.

Lemma planar_sample cov g :
  planar cov ->
  z (sample cov g) = 0 /\ roll (sample cov g) = 0 /\ pitch (sample cov g) = 0.
Proof.
  intros (Hz & Hr & Hp). unfold sample. cbn. rewrite Hz, Hr, Hp, sqrt_0.
  repeat split; ring.
Qed.

(** Entry [i] of a list of numbers is there and is zero. *)
Lemma covariance_of_zeroes qs :
  length qs = 6%nat ->
  Forall (fun q => Qle_bool 0 q = true) qs ->
  (nth 2 qs 1 == 0)%Q -> (nth 3 qs 1 == 0)%Q -> (nth 4 qs 1 == 0)%Q ->
  exists cov, covariance_of_list qs = inr cov /\ planar cov.
Proof.
  intros Hlen Hpos H2 H3 H4.
  destruct qs as [|a [|b [|c [|d [|e [|f [|]]]]]]]; try discriminate Hlen.
  cbn [nth] in H2, H3, H4.
  exists (mkCov (Q2R a) (Q2R b) (Q2R c) (Q2R d) (Q2R e) (Q2R f)).
  split.
  - unfold covariance_of_list.
    replace (forallb (fun q => Qle_bool 0 q) [a; b; c; d; e; f]) with true;
      [reflexivity|].
    symmetry. apply forallb_forall. intros q Hq.
    apply (proj1 (List.Forall_forall _ _) Hpos q Hq).
  - unfold planar. cbn [var_z var_roll var_pitch].
    rewrite (Qeq_eqR _ _ H2), (Qeq_eqR _ _ H3), (Qeq_eqR _ _ H4).
    change (Q2R 0) with (0 * / 1). repeat split; field.
Qed.

(** C8. The defaults of [init_covariance] and [motion_covariance] are list
    literals of six numbers, none negative, whose entries for z, roll and
    pitch (the third, fourth and fifth) are 0; they are what the default
    launch delivers. As covariance diagonals they are valid and have no
    variance off the plane, so the noise model never perturbs z, roll or
    pitch with them, whatever the Gaussian draw. *)
Theorem default_covariances_are_planar :
  exists s_init s_motion q_init q_motion,
    default_of auv_pf_launch "init_covariance" = Some s_init
    /\ default_of auv_pf_launch "motion_covariance" = Some s_motion
    /\ read_list s_init = Some q_init
    /\ read_list s_motion = Some q_motion
    /\ length q_init = 6%nat /\ length q_motion = 6%nat
    /\ (nth 2 q_init 1 == 0 /\ nth 3 q_init 1 == 0 /\ nth 4 q_init 1 == 0)%Q
    /\ (nth 2 q_motion 1 == 0 /\ nth 3 q_motion 1 == 0
        /\ nth 4 q_motion 1 == 0)%Q
    /\ (exists n, launch auv_pf_launch ∅ = Some [n]
                  /\ n_params n !! "init_covariance" = Some (XString s_init)
                  /\ n_params n !! "motion_covariance"
                     = Some (XString s_motion))
    /\ (exists cov_init cov_motion,
          covariance_of_list q_init = inr cov_init
          /\ covariance_of_list q_motion = inr cov_motion
          /\ planar cov_init /\ planar cov_motion
          /\ (forall g,
                z (sample cov_init g) = 0 /\ roll (sample cov_init g) = 0
                /\ pitch (sample cov_init g) = 0)
          /\ (forall g,
                z (sample cov_motion g) = 0 /\ roll (sample cov_motion g) = 0
                /\ pitch (sample cov_motion g) = 0)).
Proof.
  exists "[0, 0, 0.0, 0.0, 0.0, 0.0]"%string,
         "[0, 0, 0.0, 0.0, 0.0, 0.00]"%string.
  exists [0; 0; 0 # 10; 0 # 10; 0 # 10; 0 # 10]%Q,
         [0; 0; 0 # 10; 0 # 10; 0 # 10; 0 # 100]%Q.
  split; [reflexivity|]. split; [reflexivity|].
  split; [vm_compute; reflexivity|]. split; [vm_compute; reflexivity|].
  split; [reflexivity|]. split; [reflexivity|].
  split; [repeat split; reflexivity|]. split; [repeat split; reflexivity|].
  split.
  { exists (auv_pf_node "screen" (delivered ∅ 1)).
    split; [rewrite launch_closed_form; reflexivity|].
    cbn [auv_pf_node n_params].
    split; delivered_lookup; vm_compute; reflexivity. }
  destruct (covariance_of_zeroes [0; 0; 0 # 10; 0 # 10; 0 # 10; 0 # 10]%Q)
    as (ci & Hci & Hpi); try reflexivity.
  { repeat constructor. }
  destruct (covariance_of_zeroes [0; 0; 0 # 10; 0 # 10; 0 # 10; 0 # 100]%Q)
    as (cm & Hcm & Hpm); try reflexivity.
  { repeat constructor. }
  exists ci, cm.
  split; [exact Hci|]. split; [exact Hcm|].
  split; [exact Hpi|]. split; [exact Hpm|].
  split; intros g; apply planar_sample; assumption.
Qed.

(** C9. Unless [particle_count] is set on the command line the node
    receives the integer 1, and the default launch does start the node. A
    filter initialized with that count holds one particle of weight 1;
    [update] always leaves its weight at 1, [maybeResample] leaves the
    population as it is, and [estimate] returns the particle's own pose. *)
Theorem default_single_particle :
  (forall given ns n,
      given !! "particle_count" = None ->
      launch auv_pf_launch given = Some ns -> In n ns ->
      n_params n !! "particle_count" = Some (XInt 1))
  /\ (exists n, launch auv_pf_launch ∅ = Some [n]
                /\ n_params n !! "particle_count" = Some (XInt 1))
  /\ (forall prior cov draws,
        exists P, initialize (Z.to_nat 1) prior cov draws
                  = mkFilter Ready [mkParticle P 1])
  /\ (forall likelihood P w,
        update likelihood (mkFilter Ready [mkParticle P w])
        = inr (mkFilter Ready [mkParticle P 1]))
  /\ (forall threshold offset P,
        maybeResample threshold offset (mkFilter Ready [mkParticle P 1])
        = inr (mkFilter Ready [mkParticle P 1]))
  /\ (forall P, wrapped P -> estimate [mkParticle P 1] = P).
Proof.
  split; [|split; [|split; [|split; [|split]]]].
  - intros given ns n Hnone Hl Hn.
    apply launch_inv in Hl as (b & count & _ & Hc & ->).
    destruct Hn as [<-|[]]. cbn [auv_pf_node n_params].
    unfold arg_value in Hc. rewrite Hnone in Hc. cbn in Hc.
    injection Hc as <-. apply delivered_particle_count.
  - exists (auv_pf_node "screen" (delivered ∅ 1)).
    split; [rewrite launch_closed_form; reflexivity|].
    apply delivered_particle_count.
  - intros prior cov draws.
    exists (apply_delta prior (sample cov (draws 0%nat))).
    unfold initialize. change (Z.to_nat 1) with 1%nat.
    cbn [seq map INR].
    replace (1 / 1) with 1 by field. reflexivity.
  - intros likelihood P w. unfold update, reweight.
    cbn [phase_of particles map pose weight].
    rewrite normalize_single. reflexivity.
  - intros threshold offset P. unfold maybeResample.
    cbn [phase_of particles].
    destruct (Rlt_dec (ESS [mkParticle P 1]) threshold); [|reflexivity].
    rewrite systematic_resample_single. reflexivity.
  - intros P HP. apply estimate_single; [exact HP|lra].
Qed.

(** ** Instances *)

(** C2 at work: no parameter set, and both set. *)
Lemma timers_follow_rates_witness :
  t_period <$> timers (run ∅ [0%nat; 1%nat]) !! 0%nat = Some (mkDuration 1)
  /\ t_period <$> timers (run ∅ [0%nat; 1%nat]) !! 1%nat
     = Some (mkDuration 1)
  /\ t_period
       <$> timers (run {[ "odom_rate" := XDouble 0.5;
                          "meas_rate" := XDouble 2 ]} []) !! 0%nat
     = Some (mkDuration 0.5)
  /\ t_period
       <$> timers (run {[ "odom_rate" := XDouble 0.5;
                          "meas_rate" := XDouble 2 ]} []) !! 1%nat
     = Some (mkDuration 2).
Proof.
  destruct (timers_follow_rates ∅ [0%nat; 1%nat])
    as (_ & _ & Ho & Hm & _).
  destruct (timers_follow_rates
              {[ "odom_rate" := XDouble 0.5; "meas_rate" := XDouble 2 ]} [])
    as (_ & _ & _ & _ & Ho' & Hm' & _).
  split; [apply Ho; reflexivity|].
  split; [apply Hm; reflexivity|].
  split; [apply Ho'; reflexivity|apply Hm'; reflexivity].
Defined.

(** C4 at work: two particles, one of which is impossible under the
    measurement. *)
Lemma weights_sum_to_one_witness :
  exists f1 f2,
    update x (mkFilter Ready [mkParticle (mkPose 0 0 0 0 0 0) (1 / 2);
                              mkParticle (mkPose 1 0 0 0 0 0) (1 / 2)])
    = inr f1
    /\ total_weight (particles f1) = 1
    /\ length (particles f1) = 2%nat
    /\ maybeResample 1 0 f1 = inr f2
    /\ total_weight (particles f2) = 1
    /\ length (particles f2) = 2%nat.
Proof.
  apply (weights_sum_to_one x
           (mkFilter Ready [mkParticle (mkPose 0 0 0 0 0 0) (1 / 2);
                            mkParticle (mkPose 1 0 0 0 0 0) (1 / 2)]) 1 0).
  - reflexivity.
  - apply Exists_cons_tl, Exists_cons_hd. cbn. lra.
Defined.

(** C5 at work. *)
Lemma zero_noise_is_noop_witness :
  apply_delta (mkPose 1 2 3 0 0 0)
              (sample zero_covariance (mkPose 5 5 5 5 5 5))
  = mkPose 1 2 3 0 0 0.
Proof.
  apply (proj2 (proj2 (proj2
           (zero_noise_is_noop (mkPose 1 2 3 0 0 0) (mkPose 5 5 5 5 5 5))))).
  assert (Hpi := PI_RGT_0).
  unfold wrapped, wrapped_angle. cbn. lra.
Defined.

(** C6 at work: unequal weights a quarter turn apart, and equal weights one
    radian short of the cut on either side. *)
Lemma estimate_is_weighted_circular_mean_witness :
  yaw (estimate [mkParticle (mkPose 0 0 0 0 0 (PI / 2)) (3 / 4);
                 mkParticle (mkPose 4 0 0 0 0 (- (PI / 2))) (1 / 4)])
  = PI / 2
  /\ x (estimate [mkParticle (mkPose 0 0 0 0 0 (PI / 2)) (3 / 4);
                  mkParticle (mkPose 4 0 0 0 0 (- (PI / 2))) (1 / 4)])
     = (3 / 4 * 0 + 1 / 4 * 4) / (3 / 4 + 1 / 4)
  /\ yaw (estimate [mkParticle (mkPose 0 0 0 0 0 (PI - 1)) (1 / 2);
                    mkParticle (mkPose 2 0 0 0 0 (- PI + 1)) (1 / 2)]) = PI.
Proof.
  destruct estimate_is_weighted_circular_mean as (_ & Hdir & Hquarter & Hcut).
  assert (Hpi := PI_RGT_0).
  split; [|split].
  - apply (proj2 (proj2 (Hdir [mkParticle (mkPose 0 0 0 0 0 (PI / 2)) (3 / 4);
                               mkParticle (mkPose 4 0 0 0 0 (- (PI / 2)))
                                          (1 / 4)]
                              (1 / 2) (PI / 2) ltac:(lra)
                              ltac:(unfold wrapped_angle; lra)))).
    + unfold sum_over. cbn [map fold_right pose weight yaw].
      rewrite sin_neg, sin_PI2. lra.
    + unfold sum_over. cbn [map fold_right pose weight yaw].
      rewrite cos_neg, cos_PI2. lra.
  - apply (Hquarter (mkPose 0 0 0 0 0 (PI / 2))
                    (mkPose 4 0 0 0 0 (- (PI / 2))) (3 / 4) (1 / 4));
      [lra|reflexivity|reflexivity].
  - apply (Hcut (mkPose 0 0 0 0 0 (PI - 1)) (mkPose 2 0 0 0 0 (- PI + 1))
                (1 / 2) 1); [lra|split; [lra|exact PI2_1]|reflexivity
                            |reflexivity].
Defined.

(** C9 at work: another argument set, the count left alone. *)
Lemma default_single_particle_witness :
  n_params (auv_pf_node "screen" (delivered {[ "mode" := "real" ]} 1))
    !! "particle_count" = Some (XInt 1)
  /\ estimate [mkParticle (mkPose 1 2 3 0 0 0) 1] = mkPose 1 2 3 0 0 0.
Proof.
  destruct default_single_particle as (Hcount & _ & _ & _ & _ & Hest).
  split.
  - apply (Hcount {[ "mode" := "real" ]}
                  [auv_pf_node "screen" (delivered {[ "mode" := "real" ]} 1)]).
    + reflexivity.
    + rewrite launch_closed_form. reflexivity.
    + left. reflexivity.
  - apply Hest. assert (Hpi := PI_RGT_0).
    unfold wrapped, wrapped_angle. cbn. lra.
Defined.

(** The checks that guard the filter: before [initialize] neither [update]
    nor [maybeResample] touches the population, and a covariance of the
    wrong arity or with a negative variance is refused. *)
Lemma filter_guards likelihood threshold offset :
  update likelihood uninitialized = inl PreconditionViolation
  /\ maybeResample threshold offset uninitialized = inl PreconditionViolation
  /\ covariance_of_list [0; 0; 0]%Q = inl ConfigurationError
  /\ covariance_of_list [0; 0; 0; 0; 0; -1]%Q = inl ConfigurationError.
Proof. repeat split. Qed.

(** One run: the motion timer expires, then the measurement timer, then a
    timer that does not exist. *)
Example run_trace :
  trace (run ∅ [0%nat; 1%nat; 7%nat])
  = [ EvRosInit "auv_motion_model"; EvNodeHandle "~"; EvNew 0; EvInit 0;
      EvCreateTimer (mkTimer (mkDuration 1)
                             AUVMotionModel.cb_updateMotion 0);
      EvCreateTimer (mkTimer (mkDuration 1) AUVMotionModel.cb_updateMeas 0);
      EvCallback AUVMotionModel.cb_updateMotion 0
                 (Some AUVMotionModel.Running);
      EvCallback AUVMotionModel.cb_updateMeas 0 (Some AUVMotionModel.Running);
      EvShutdown; EvDelete 0; EvLog "auv_motion_model finished" ].
Proof. vm_compute. reflexivity. Qed.

(** An integer parameter is converted to a double; a string is not one. *)
Example rates_by_type :
  t_period <$> timers (run {[ "odom_rate" := XInt 2;
                              "meas_rate" := XString "fast" ]} [])
  = [mkDuration 2; mkDuration 1].
Proof. vm_compute. reflexivity. Qed.

(** One launch: real vehicle, quiet, two hundred particles. *)
Example launch_real_quiet :
  (fun n => (n_output n, n_params n !! "particle_count",
             n_params n !! "odometry_topic"))
    <$> default []
          (launch auv_pf_launch
             {[ "mode" := "real"; "debug_mode" := "False";
                "particle_count" := "200" ]}%string)
  = [("log", Some (XInt 200), Some (XString "/real/odom"))].
Proof. vm_compute. reflexivity. Qed.

(** A [debug_mode] that is no boolean, or a count that is no integer, stops
    the launch. *)
Example launch_rejected :
  launch auv_pf_launch {[ "debug_mode" := "maybe" ]}%string = None
  /\ launch auv_pf_launch {[ "particle_count" := "1.5" ]}%string = None.
Proof. split; vm_compute; reflexivity. Qed.

(** ** Beyond the claims: shutdown and dispatch in [main] *)

(** [main] returns 0 from whatever state it is started in. *)
Lemma main_returns_zero w : fst (main w) = 0%Z.
Proof.
  unfold main, mbind, M_bind.
  repeat match goal with
         | |- context [let '(_, _) := ?e in _] => destruct e
         end.
  reflexivity.
Qed.

(** X1. Every execution of the wrapper ends the same way: the node shuts
    down once, after the last callback; the motion model is then deleted,
    once, so that no object is left on the heap and no callback ever ran on a
    deleted model; the closing message is the last thing logged; and [main]
    returns 0. The guard of the [delete] never keeps it from running. *)
Theorem cleanup_after_shutdown ps fs :
  let w := run ps fs in
  fst (main (start ps fs)) = 0%Z
  /\ ok w = false
  /\ Forall (fun o => o = None) (heap w)
  /\ (exists before,
        trace w
        = before ++ [EvShutdown; EvDelete 0;
                     EvLog "auv_motion_model finished"]
        /\ count is_shutdown before = 0%nat
        /\ count is_delete before = 0%nat
        /\ count is_callback before = count is_callback (trace w))
  /\ (forall cb p, ~ In (EvCallback cb p None) (trace w)).
Proof.
  cbv zeta. split; [apply main_returns_zero|].
  rewrite run_closed_form. cbn [ok heap trace].
  split; [reflexivity|]. split; [repeat constructor|]. split.
  - exists (prologue ps ++ callback_events fs).
    split; [rewrite <- app_assoc; reflexivity|].
    rewrite !count_app, !callback_events_only_callbacks by reflexivity.
    repeat split. rewrite Nat.add_0_r. reflexivity.
  - intros cb p H.
    apply in_app_or in H as [H|H]; [|apply in_app_or in H as [H|H]].
    + cbn in H. intuition discriminate.
    + apply callback_events_shape in H as [cb' H]. discriminate H.
    + cbn in H. intuition discriminate.
Qed.

Lemma filter_callback_events fs :
  List.filter is_callback (callback_events fs) = callback_events fs.
Proof.
  induction fs as [|i fs IH]; [reflexivity|].
  change (callback_events (i :: fs))
    with (callback_event i ++ callback_events fs).
  rewrite List.filter_app, IH. destruct i as [|[|i]]; reflexivity.
Qed.

(** X2. Callbacks are dispatched in the order the timers expire, each timer
    to its own member function: the first timer always enters
    [updateMotion], the second always [updateMeas], both on the one model,
    and an expiration that names no timer enters nothing. *)
Theorem callbacks_follow_expirations ps fs :
  List.filter is_callback (trace (run ps fs))
  = flat_map
      (fun i =>
         match timers (run ps fs) !! i with
         | Some tm => [EvCallback (t_callback tm) (t_obj tm)
                                  (Some AUVMotionModel.Running)]
         | None => []
         end) fs
  /\ t_callback <$> timers (run ps fs)
     = [AUVMotionModel.cb_updateMotion; AUVMotionModel.cb_updateMeas].
Proof.
  rewrite run_closed_form. cbn [trace timers]. split; [|reflexivity].
  rewrite !List.filter_app, filter_callback_events.
  change (List.filter is_callback (prologue ps)) with (@nil event).
  change (List.filter is_callback epilogue) with (@nil event).
  rewrite app_nil_r. cbn [app]. unfold callback_events.
  apply flat_map_ext. intros [|[|i]]; reflexivity.
Qed.

(** ** Beyond the claims: arguments and parameters of the launch *)

Lemma recognized_cases name :
  name ∈ recognized_options ->
  name = "particle_count" \/ name = "init_covariance"
  \/ name = "motion_covariance" \/ name = "measurement_covariance"
  \/ name = "map_frame" \/ name = "odom_frame"
  \/ name = "odometry_topic" \/ name = "mbes_pings_topic"
  \/ name = "average_pose_topic" \/ name = "particle_poses_topic"
  \/ name = "particle_sim_mbes_topic" \/ name = "average_mbes_topic".
Proof. unfold recognized_options. set_unfold. tauto. Qed.

(** Every argument of the description has a value once evaluated. *)
Lemma context_total given name :
  name ∈ recognized_options -> is_Some (context given !! name).
Proof.
  intros H. apply recognized_cases in H. apply elem_of_dom.
  unfold context. cbv zeta. rewrite !dom_insert_L. set_unfold. tauto.
Qed.

(** Each untyped parameter is the automatic conversion of the argument of
    its own name. *)
Lemma delivered_auto given count name :
  name ∈ recognized_options -> name <> "particle_count" ->
  delivered given count !! name
  = Some (convert_auto (default EmptyString (context given !! name))).
Proof.
  intros H Hne. apply recognized_cases in H.
  destruct H as [->|H]; [congruence|].
  repeat (destruct H as [->|H]); try subst name;
    unfold delivered; cbv zeta;
    repeat first [ rewrite lookup_insert_eq
                 | rewrite lookup_insert_ne by discriminate ];
    reflexivity.
Qed.

(** A text that starts with a slash is no number and no boolean: it is
    delivered as the string it is. *)
Lemma convert_auto_slash s :
  convert_auto ("/" +:+ s) = XString ("/" +:+ s).
Proof.
  change ("/" +:+ s)%string with (String "/" s).
  assert (Hstrip : exists r, strip (String "/" s) = String "/" r).
  { unfold strip. cbn [lstrip]. change (is_space "/") with false.
    cbn [rstrip]. destruct (rstrip s); eauto. }
  destruct Hstrip as [r Hr].
  assert (Hint : parse_int (String "/" s) = None).
  { unfold parse_int. rewrite Hr. reflexivity. }
  assert (Hdec : parse_decimal (String "/" s) = None).
  { unfold parse_decimal. rewrite Hr. cbn [split_sign split_dot].
    change (Ascii.eqb "/" ".") with false. cbv iota.
    destruct (split_dot r) as [a b]. reflexivity. }
  unfold convert_auto. rewrite Hint, Hdec.
  destruct (has_dot (String "/" s)); reflexivity.
Qed.

(** Parameters follow their arguments, across command lines and counts. *)
Lemma delivered_follows given given' count count' name :
  (name = "particle_count" -> count = count') ->
  (name ∈ recognized_options -> name <> "particle_count" ->
   context given !! name = context given' !! name) ->
  delivered given count !! name = delivered given' count' !! name.
Proof.
  intros Hcount Hctx.
  destruct (decide (name ∈ recognized_options)) as [Hin|Hout].
  - destruct (decide (name = "particle_count")) as [Hpc|Hne].
    + rewrite (Hcount Hpc). subst name.
      rewrite !delivered_particle_count. reflexivity.
    + rewrite !delivered_auto, Hctx by assumption. reflexivity.
  - assert (Hnone : forall g c, delivered g c !! name = None).
    { intros g c. apply not_elem_of_dom. rewrite dom_delivered. exact Hout. }
    rewrite !Hnone. reflexivity.
Qed.

(** X3. In both groups each parameter of the node is wired to the argument
    of its own name and to no other. Of two launches that succeed, whatever
    their command lines and whichever group each takes, the nodes receive
    the same parameter of a name as soon as the argument of that name has
    the same text in both; and an untyped parameter whose argument is an
    absolute name (a slash, then letters, digits, underscores and slashes)
    is received as that very string. *)
Theorem parameters_carry_their_arguments given given' ctx ctx' ns ns' n n' :
  eval_args (launch_args auv_pf_launch) given ∅ = Some ctx ->
  launch auv_pf_launch given = Some ns -> In n ns ->
  eval_args (launch_args auv_pf_launch) given' ∅ = Some ctx' ->
  launch auv_pf_launch given' = Some ns' -> In n' ns' ->
  (forall name,
      ctx !! name = ctx' !! name ->
      n_params n !! name = n_params n' !! name)
  /\ (forall name s,
        name ∈ recognized_options -> name <> "particle_count" ->
        ctx !! name = Some s -> absolute_name s = true ->
        n_params n !! name = Some (XString s)).
Proof.
  rewrite !eval_args_closed. intros [= <-] Hl Hn [= <-] Hl' Hn'.
  apply launch_inv in Hl as (b & count & _ & Hc & ->).
  apply launch_inv in Hl' as (b' & count' & _ & Hc' & ->).
  destruct Hn as [<-|[]]. destruct Hn' as [<-|[]].
  cbn [auv_pf_node n_params]. split.
  - intros name Hctx. apply delivered_follows.
    + intros ->. rewrite !context_particle_count in Hctx.
      injection Hctx as Hctx. rewrite Hctx in Hc. congruence.
    + intros _ _. exact Hctx.
  - intros name s Hin Hne Hs Habs.
    rewrite delivered_auto, Hs by assumption.
    cbn [default from_option]. unfold Datatypes.id.
    destruct s as [|c r]; [discriminate Habs|].
    destruct (Ascii.eqb_spec c "/") as [->|Hc0].
    + f_equal. exact (convert_auto_slash r).
    + exfalso. revert Habs. unfold absolute_name.
      destruct c as [[] [] [] [] [] [] [] []];
        first [discriminate | intros _; apply Hc0; reflexivity].
Qed.

Lemma context_topics given :
  context given !! "odometry_topic"
  = Some (arg_value given "odometry_topic"
            ("/" +:+ arg_value given "mode" "sim" +:+ "/odom"))
  /\ context given !! "mbes_pings_topic"
     = Some (arg_value given "mbes_pings_topic"
               ("/" +:+ arg_value given "mode" "sim" +:+ "/mbes_pings"))
  /\ context given !! "average_pose_topic"
     = Some (arg_value given "average_pose_topic"
               ("/" +:+ arg_value given "filter" "pf" +:+ "/avg_pose"))
  /\ context given !! "particle_poses_topic"
     = Some (arg_value given "particle_poses_topic"
               ("/" +:+ arg_value given "filter" "pf" +:+ "/particle_poses"))
  /\ context given !! "particle_sim_mbes_topic"
     = Some (arg_value given "particle_sim_mbes_topic"
               ("/" +:+ arg_value given "filter" "pf" +:+ "/sim_mbes"))
  /\ context given !! "average_mbes_topic"
     = Some (arg_value given "average_mbes_topic"
               ("/" +:+ arg_value given "filter" "pf" +:+ "/avg_mbes")).
Proof. repeat split; context_lookup. Qed.

(** The value delivered for a topic that is left at its default. *)
Lemma delivered_default_topic given count name ns leaf :
  name ∈ recognized_options -> name <> "particle_count" ->
  context given !! name = Some (arg_value given name ("/" +:+ ns +:+ leaf)) ->
  given !! name = None ->
  delivered given count !! name = Some (XString ("/" +:+ ns +:+ leaf)).
Proof.
  intros Hin Hne Hctx Hnone.
  rewrite delivered_auto, Hctx by assumption.
  unfold arg_value. rewrite Hnone. cbn [default from_option].
  unfold Datatypes.id. rewrite convert_auto_slash. reflexivity.
Qed.

(** X4. A topic that is not set on the command line is named after the
    [mode] (the two inputs) or the [filter] (the four outputs), set or left
    at [sim] and [pf]; and whatever those two are, even a number or a
    boolean, the name is delivered as a string. *)
Theorem default_topics_follow_mode_and_filter given ns n :
  launch auv_pf_launch given = Some ns -> In n ns ->
  let mode := default "sim"%string (given !! "mode") in
  let filter := default "pf"%string (given !! "filter") in
  (given !! "odometry_topic" = None ->
   n_params n !! "odometry_topic" = Some (XString ("/" +:+ mode +:+ "/odom")))
  /\ (given !! "mbes_pings_topic" = None ->
      n_params n !! "mbes_pings_topic"
      = Some (XString ("/" +:+ mode +:+ "/mbes_pings")))
  /\ (given !! "average_pose_topic" = None ->
      n_params n !! "average_pose_topic"
      = Some (XString ("/" +:+ filter +:+ "/avg_pose")))
  /\ (given !! "particle_poses_topic" = None ->
      n_params n !! "particle_poses_topic"
      = Some (XString ("/" +:+ filter +:+ "/particle_poses")))
  /\ (given !! "particle_sim_mbes_topic" = None ->
      n_params n !! "particle_sim_mbes_topic"
      = Some (XString ("/" +:+ filter +:+ "/sim_mbes")))
  /\ (given !! "average_mbes_topic" = None ->
      n_params n !! "average_mbes_topic"
      = Some (XString ("/" +:+ filter +:+ "/avg_mbes"))).
Proof.
  intros Hl Hn mode filter.
  apply launch_inv in Hl as (b & count & _ & _ & ->).
  destruct Hn as [<-|[]]. cbn [auv_pf_node n_params].
  destruct (context_topics given) as (H1 & H2 & H3 & H4 & H5 & H6).
  repeat split; intros Hnone;
    (apply delivered_default_topic;
     [unfold recognized_options; set_unfold; tauto
     |discriminate|assumption|assumption]).
Qed.

Lemma default_topics_follow_mode_and_filter_witness :
  let given : gmap string string :=
    {[ "mode" := "1.5"; "filter" := "true" ]}%string in
  let n := auv_pf_node "screen" (delivered given 1) in
  launch auv_pf_launch given = Some [n]
  /\ n_params n !! "odometry_topic" = Some (XString "/1.5/odom")
  /\ n_params n !! "average_pose_topic" = Some (XString "/true/avg_pose").
Proof.
  intros given n.
  assert (Hl : launch auv_pf_launch given = Some [n])
    by (rewrite launch_closed_form; reflexivity).
  split; [exact Hl|].
  destruct (default_topics_follow_mode_and_filter given [n] n Hl)
    as (H1 & _ & H3 & _); [left; reflexivity|].
  split; [apply H1; reflexivity|apply H3; reflexivity].
Defined.

Ltac same_lookup :=
  rewrite !lookup_insert;
  repeat (case_decide; [first [reflexivity | exfalso; set_solver]|]);
  reflexivity.

(** Setting [mode] changes that argument and the defaults of the two input
    topics, and nothing else. *)
Lemma context_insert_mode given v name :
  name <> "mode" -> name ∉ input_topics ->
  context (<["mode" := v]> given) !! name = context given !! name.
Proof.
  intros Hm Hin. unfold input_topics in Hin.
  unfold context. cbv zeta.
  rewrite !arg_value_insert_eq.
  rewrite !(arg_value_insert_ne given "mode") by discriminate.
  same_lookup.
Qed.

(** Setting [filter] changes that argument and the defaults of the four
    output topics, and nothing else. *)
Lemma context_insert_filter given v name :
  name <> "filter" -> name ∉ output_topics ->
  context (<["filter" := v]> given) !! name = context given !! name.
Proof.
  intros Hm Hin. unfold output_topics in Hin.
  unfold context. cbv zeta.
  rewrite !arg_value_insert_eq.
  rewrite !(arg_value_insert_ne given "filter") by discriminate.
  same_lookup.
Qed.

(** Parameters follow their arguments: where two command lines give an
    argument the same value, the parameter of that name is the same. *)
Lemma delivered_same given given' count name :
  (name ∈ recognized_options ->
   context given' !! name = context given !! name) ->
  delivered given' count !! name = delivered given count !! name.
Proof.
  intros Hctx.
  destruct (decide (name ∈ recognized_options)) as [Hin|Hout].
  - destruct (decide (name = "particle_count")) as [->|Hne].
    + rewrite !delivered_particle_count. reflexivity.
    + rewrite !delivered_auto, Hctx by assumption. reflexivity.
  - rewrite <- (dom_delivered given' count) in Hout.
    apply not_elem_of_dom in Hout. rewrite Hout.
    apply not_elem_of_dom in Hout. rewrite dom_delivered in Hout.
    rewrite <- (dom_delivered given count) in Hout.
    apply not_elem_of_dom in Hout. rewrite Hout. reflexivity.
Qed.

(** X6. The [mode] argument reaches the node through the two input topics
    only, and the [filter] argument through the four output topics only:
    setting either leaves the success of the launch, the output of the node
    and every other parameter as they were. *)
Theorem mode_and_filter_reach_only_topics given v name :
  (name ∉ input_topics ->
   view name (launch auv_pf_launch (<["mode" := v]> given))
   = view name (launch auv_pf_launch given))
  /\ (name ∉ output_topics ->
      view name (launch auv_pf_launch (<["filter" := v]> given))
      = view name (launch auv_pf_launch given)).
Proof.
  split; intros Hout; rewrite !launch_closed_form;
    rewrite !(arg_value_insert_ne given _ "debug_mode") by discriminate;
    rewrite !(arg_value_insert_ne given _ "particle_count") by discriminate;
    destruct (convert_bool (arg_value given "debug_mode" "True")) as [b|];
    try reflexivity;
    destruct (parse_int (arg_value given "particle_count" "1")) as [c|];
    try reflexivity;
    unfold view; cbn [fmap option_fmap option_map list_fmap
                      auv_pf_node n_output n_params];
    do 3 f_equal; apply delivered_same; intros Hin.
  - apply context_insert_mode; [|exact Hout].
    intros ->. unfold recognized_options in Hin. set_unfold.
    intuition discriminate.
  - apply context_insert_filter; [|exact Hout].
    intros ->. unfold recognized_options in Hin. set_unfold.
    intuition discriminate.
Qed.

Lemma mode_and_filter_reach_only_topics_witness :
  view "odom_frame"
       (launch auv_pf_launch (<["mode" := "real"]> ∅))
  = Some [("screen", Some (XString "odom"))]
  /\ view "odometry_topic"
          (launch auv_pf_launch (<["filter" := "ekf"]> ∅))
     = Some [("screen", Some (XString "/sim/odom"))].
Proof.
  split.
  - rewrite (proj1 (mode_and_filter_reach_only_topics ∅ "real" "odom_frame")).
    + vm_compute. reflexivity.
    + unfold input_topics. set_unfold. intuition discriminate.
  - rewrite (proj2 (mode_and_filter_reach_only_topics
                      ∅ "ekf" "odometry_topic")).
    + vm_compute. reflexivity.
    + unfold output_topics. set_unfold. intuition discriminate.
Defined.

Lemma parameters_carry_their_arguments_witness :
  let given : gmap string string :=
    {[ "debug_mode" := "false"; "map_frame" := "/world";
       "particle_count" := "50" ]}%string in
  let given' : gmap string string :=
    {[ "map_frame" := "/world"; "mode" := "real" ]}%string in
  let n := auv_pf_node "log" (delivered given 50) in
  let n' := auv_pf_node "screen" (delivered given' 1) in
  n_params n !! "map_frame" = n_params n' !! "map_frame"
  /\ n_params n !! "map_frame" = Some (XString "/world").
Proof.
  intros given given' n n'.
  destruct (parameters_carry_their_arguments
              given given' (context given) (context given') [n] [n'] n n')
    as [Hsame Hname].
  - apply eval_args_closed.
  - rewrite launch_closed_form. reflexivity.
  - left. reflexivity.
  - apply eval_args_closed.
  - rewrite launch_closed_form. reflexivity.
  - left. reflexivity.
  - split.
    + apply Hsame. reflexivity.
    + apply Hname.
      * unfold recognized_options. set_unfold. tauto.
      * discriminate.
      * reflexivity.
      * reflexivity.
Defined.

(** The arguments the description declares. *)
Lemma declared_cases name :
  is_Some (default_of auv_pf_launch name) ->
  name = "mode" \/ name = "debug_mode" \/ name = "filter"
  \/ name = "particle_count" \/ name = "init_covariance"
  \/ name = "motion_covariance" \/ name = "measurement_covariance"
  \/ name = "map_frame" \/ name = "odom_frame"
  \/ name = "odometry_topic" \/ name = "mbes_pings_topic"
  \/ name = "average_pose_topic" \/ name = "particle_poses_topic"
  \/ name = "particle_sim_mbes_topic" \/ name = "average_mbes_topic".
Proof.
  unfold default_of. cbn [launch_args auv_pf_launch find arg_name].
  repeat match goal with
         | |- context [String.eqb ?a name] =>
             destruct (String.eqb_spec a name) as [<-|_]; [tauto|]
         end.
  intros [d Hd]. discriminate Hd.
Qed.

(** An argument set on the command line has that text as its value. *)
Lemma context_given given name s :
  is_Some (default_of auv_pf_launch name) -> given !! name = Some s ->
  context given !! name = Some s.
Proof.
  intros Hin Hs. apply declared_cases in Hin.
  repeat (destruct Hin as [->|Hin]); try subst name;
    unfold context; cbv zeta;
    repeat first [ rewrite lookup_insert_eq
                 | rewrite lookup_insert_ne by discriminate ];
    unfold arg_value; rewrite Hs; reflexivity.
Qed.

(** Setting an argument that is not set to the text [dflt] leaves the value
    of every argument whose default, when it is that one, is [dflt]. *)
Lemma arg_value_insert_default given name d k dflt :
  given !! name = None -> (k = name -> dflt = d) ->
  arg_value (<[name := d]> given) k dflt = arg_value given k dflt.
Proof.
  intros Hnone Hd. unfold arg_value.
  destruct (decide (k = name)) as [Hk|Hk].
  - rewrite (Hd Hk). subst k. rewrite lookup_insert_eq, Hnone. reflexivity.
  - rewrite lookup_insert_ne by congruence. reflexivity.
Qed.

(** Setting an argument without substitution to its declared default
    leaves every argument as it was. *)
Lemma context_insert_default given name d :
  default_of auv_pf_launch name = Some d ->
  name ∉ input_topics -> name ∉ output_topics ->
  given !! name = None ->
  context (<[name := d]> given) = context given.
Proof.
  intros Hd Hi Ho Hnone.
  assert (Hin : is_Some (default_of auv_pf_launch name)) by eauto.
  apply declared_cases in Hin.
  unfold input_topics in Hi. unfold output_topics in Ho.
  repeat (destruct Hin as [->|Hin]); try subst name;
    try (exfalso; set_solver);
    vm_compute in Hd; injection Hd as <-;
    unfold context; cbv zeta;
    rewrite !(arg_value_insert_default given _ _ _ _ Hnone)
      by (intros Hk; first [discriminate Hk | reflexivity]);
    reflexivity.
Qed.

(** X7. Every argument of the description is declared with a default, which
    the command line overrides: an argument that is set has the text set for
    it as its value; and for an argument other than a topic, not setting it
    is the same as setting it to the default the description declares, for
    the whole launch and whatever else is set. *)
Theorem command_line_beats_default given :
  (forall name s,
      is_Some (default_of auv_pf_launch name) -> given !! name = Some s ->
      exists ctx,
        eval_args (launch_args auv_pf_launch) given ∅ = Some ctx
        /\ ctx !! name = Some s)
  /\ (forall name d,
        default_of auv_pf_launch name = Some d ->
        name ∉ input_topics -> name ∉ output_topics ->
        given !! name = None ->
        launch auv_pf_launch (<[name := d]> given)
        = launch auv_pf_launch given).
Proof.
  split.
  - intros name s Hin Hs. exists (context given).
    split; [apply eval_args_closed|apply context_given; assumption].
  - intros name d Hd Hi Ho Hnone.
    rewrite !launch_closed_form. unfold delivered.
    rewrite (context_insert_default given name d) by assumption.
    assert (Hdebug : arg_value (<[name := d]> given) "debug_mode" "True"
                     = arg_value given "debug_mode" "True").
    { apply arg_value_insert_default; [exact Hnone|].
      intros <-. vm_compute in Hd. congruence. }
    assert (Hcount : arg_value (<[name := d]> given) "particle_count" "1"
                     = arg_value given "particle_count" "1").
    { apply arg_value_insert_default; [exact Hnone|].
      intros <-. vm_compute in Hd. congruence. }
    rewrite Hdebug, Hcount. reflexivity.
Qed.

Lemma command_line_beats_default_witness :
  let given : gmap string string :=
    {[ "measurement_covariance" := "2"; "mode" := "real" ]}%string in
  (exists ctx,
      eval_args (launch_args auv_pf_launch) given ∅ = Some ctx
      /\ ctx !! "measurement_covariance" = Some "2"%string)
  /\ launch auv_pf_launch (<["map_frame" := "map"%string]> given)
     = launch auv_pf_launch given.
Proof.
  intros given. split.
  - apply (proj1 (command_line_beats_default given)
             "measurement_covariance" "2"%string).
    + eexists. reflexivity.
    + reflexivity.
  - apply (proj2 (command_line_beats_default given) "map_frame" "map"%string).
    + reflexivity.
    + unfold input_topics. set_unfold. intuition discriminate.
    + unfold output_topics. set_unfold. intuition discriminate.
    + reflexivity.
Defined.
